(** * TaylorClifton-SDK: the request pipeline of [src/lib/api]

    A shallow embedding of [filtering.ts] (the filter encoder), [errors.ts]
    (the error classes) and [index.ts] (query composition, the retry loop and
    the chainable lazy handles), followed by the properties proved of them.

    Conventions of the embedding.
    - A JavaScript string is a [string] holding its UTF-8 bytes, so that
      percent-encoding works byte by byte as [encodeURIComponent] does on a
      well-formed string.
    - The numbers of filters and of pagination are integers ([Z]); the delay
      handed to the timer is a [JS.number], which also has [NaN].
    - A JavaScript object used as a map is the list of its entries in
      enumeration order. *)

From Stdlib Require Import ZArith QArith List String Ascii Bool Lia DecimalString.
Import ListNotations.

Local Open Scope Z_scope.
Local Open Scope list_scope.
Local Open Scope string_scope.

(** ** Language and platform primitives *)

Module JS.

(** The number type, as far as the timer delay needs it. *)
Inductive number : Type :=
| Finite (q : Q)
| Infinite (negative : bool)
| NaN.

Definition of_int (z : Z) : number := Finite (inject_Z z).

(** Unary [+] on a string is a parameter of the request loop.
    [ToNumber_decimal] is its value on the strings of the examples: a
    string of decimal digits is the number it writes (the empty string is
    0), and a text such as an HTTP date, which has a letter that occurs in
    no numeric literal, is [NaN].  Fractions, exponents, radix prefixes and
    surrounding white space are outside these examples. *)
Fixpoint decimal_value (acc : Z) (s : string) : option Z :=
  match s with
  | EmptyString => Some acc
  | String c rest =>
      let n := N_of_ascii c in
      if ((48 <=? n) && (n <=? 57))%N
      then decimal_value (10 * acc + Z.of_N (n - 48)) rest
      else None
  end.

Definition ToNumber_decimal (s : string) : number :=
  match decimal_value 0 s with
  | Some n => of_int n
  | None => NaN
  end.

(** [String(n)] for an integer [n]: the decimal digits, with a minus sign
    for a negative one.  This is the text JavaScript writes for the safe
    integers (below [2^53] in absolute value); from [1e21] on it writes an
    exponent. *)
Definition Number_toString (n : Z) : string :=
  NilZero.string_of_int (Z.to_int n).

(** [Array.prototype.join] on strings. *)
Fixpoint join (sep : string) (l : list string) : string :=
  match l with
  | [] => ""
  | x :: rest =>
      match rest with
      | [] => x
      | _ :: _ => x ++ sep ++ join sep rest
      end
  end.

(** [String.prototype.split] with a one-character separator. *)
Fixpoint split (sep : ascii) (s : string) : list string :=
  match s with
  | EmptyString => [""]
  | String c rest =>
      if Ascii.eqb c sep then "" :: split sep rest
      else match split sep rest with
           | piece :: pieces => String c piece :: pieces
           | [] => [String c ""]
           end
  end.

(** Characters that [encodeURIComponent] leaves alone:
    letters, digits and [- _ . ! ~ * ' ( )]. *)
Definition is_alnum (c : ascii) : bool :=
  let n := N_of_ascii c in
  ((48 <=? n) && (n <=? 57) || (65 <=? n) && (n <=? 90)
   || (97 <=? n) && (n <=? 122))%N.

Definition is_mark (c : ascii) : bool :=
  existsb (Ascii.eqb c) (list_ascii_of_string "-_.!~*'()").

Definition uriUnescaped (c : ascii) : bool := is_alnum c || is_mark c.

Definition hex_digit (n : N) : ascii :=
  (if n <? 10 then ascii_of_N (48 + n) else ascii_of_N (55 + n))%N.

Definition percent (c : ascii) : string :=
  let n := N_of_ascii c in
  String "%" (String (hex_digit (n / 16)) (String (hex_digit (n mod 16)) "")).

Fixpoint encodeURIComponent (s : string) : string :=
  match s with
  | EmptyString => ""
  | String c rest =>
      if uriUnescaped c then String c (encodeURIComponent rest)
      else percent c ++ encodeURIComponent rest
  end.

Definition hex_value (c : ascii) : option N :=
  let n := N_of_ascii c in
  (if (48 <=? n) && (n <=? 57) then Some (n - 48)
   else if (65 <=? n) && (n <=? 70) then Some (n - 55)
   else if (97 <=? n) && (n <=? 102) then Some (n - 87)
   else None)%N.

(** [decodeURIComponent] on the byte level; [None] is the [URIError] of a
    [%] that is not followed by two hexadecimal digits. *)
Fixpoint decodeURIComponent (s : string) : option string :=
  match s with
  | EmptyString => Some ""
  | String c rest =>
      if Ascii.eqb c "%" then
        match rest with
        | String h (String l rest') =>
            match hex_value h, hex_value l with
            | Some a, Some b =>
                option_map (String (ascii_of_N (16 * a + b)))
                           (decodeURIComponent rest')
            | _, _ => None
            end
        | _ => None
        end
      else option_map (String c) (decodeURIComponent rest)
  end.

End JS.

(** ** [filtering.ts] *)

Module Filtering.
Import JS.

(** [type Primitive = string | number | null] *)
Inductive Primitive : Type :=
| PString (s : string)
| PNumber (n : Z)
| PNull.

(** A [RegExp] object; [toString] gives [/source/flags]. *)
Record RegExp : Type := { source : string; flags : string }.

Definition RegExp_toString (r : RegExp) : string :=
  "/" ++ source r ++ "/" ++ flags r.

(** [Primitive | RegExp], the type of [IsFilter] and of [$ne]. *)
Inductive IsFilter : Type :=
| IsPrimitive (p : Primitive)
| IsRegExp (r : RegExp).

(** An object filter at run time: which of the keys [$ne], [$nin], [$gt],
    [$lt], [$gte], [$lte] it has, and their values.  [NotFilter],
    [ExcludeFilter] and [ComparisonFilter] are the objects with the
    corresponding keys. *)
Record FilterObject : Type := {
  dollar_ne : option IsFilter;
  dollar_nin : option (list Primitive);
  dollar_gt : option Z;
  dollar_lt : option Z;
  dollar_gte : option Z;
  dollar_lte : option Z
}.

Inductive Filter : Type :=
| Is (v : IsFilter)
| Exist (b : bool)
| Include (l : list Primitive)
| Obj (o : FilterObject).

Definition NotFilter (v : IsFilter) : Filter :=
  Obj {| dollar_ne := Some v; dollar_nin := None; dollar_gt := None;
         dollar_lt := None; dollar_gte := None; dollar_lte := None |}.

Definition ExcludeFilter (l : list Primitive) : Filter :=
  Obj {| dollar_ne := None; dollar_nin := Some l; dollar_gt := None;
         dollar_lt := None; dollar_gte := None; dollar_lte := None |}.

Definition ComparisonFilter (gt lt gte lte : option Z) : Filter :=
  Obj {| dollar_ne := None; dollar_nin := None; dollar_gt := gt;
         dollar_lt := lt; dollar_gte := gte; dollar_lte := lte |}.

(** [encode] on an element of an array: a string is percent-encoded, a
    number or [null] is returned unmodified. *)
Definition encode_element (p : Primitive) : Primitive :=
  match p with
  | PString s => PString (encodeURIComponent s)
  | PNumber _ | PNull => p
  end.

(** String conversion inside a template literal. *)
Definition Primitive_toString (p : Primitive) : string :=
  match p with
  | PString s => s
  | PNumber n => Number_toString n
  | PNull => "null"
  end.

Definition IsFilter_toString (v : IsFilter) : string :=
  match v with
  | IsPrimitive p => Primitive_toString p
  | IsRegExp r => RegExp_toString r
  end.

(** String conversion of an element by [Array.prototype.join], which
    writes [null] as the empty string. *)
Definition join_element (p : Primitive) : string :=
  match p with
  | PNull => ""
  | _ => Primitive_toString p
  end.

Definition Array_join (sep : string) (l : list Primitive) : string :=
  join sep (map join_element l).

(** [filter.toString()] *)
Definition Filter_toString (filter : Filter) : string :=
  match filter with
  | Is v => IsFilter_toString v
  | Exist b => if b then "true" else "false"
  | Include l => Array_join "," l
  | Obj _ => "[object Object]"
  end.

(** [canEncode]: [typeof filter === 'string' || filter instanceof RegExp] *)
Definition canEncode (filter : Filter) : bool :=
  match filter with
  | Is (IsPrimitive (PString _)) => true
  | Is (IsRegExp _) => true
  | _ => false
  end.

(** [encode]: an array is mapped element by element ([encode_element] is
    [encode] on a primitive); a filter that can be encoded becomes the
    percent-encoded form of its [toString()]; anything else, an object
    filter included, is returned unmodified. *)
Definition encode (filter : Filter) : Filter :=
  match filter with
  | Include l => Include (map encode_element l)
  | _ =>
      if canEncode filter
      then Is (IsPrimitive (PString (encodeURIComponent (Filter_toString filter))))
      else filter
  end.

(** [comparisons.push(...)] when the key is in the object. *)
Definition push_bound (key op : string) (bound : option Z) : list string :=
  match bound with
  | Some n => [key ++ op ++ Number_toString n]
  | None => []
  end.

(** The callback of [flatMap]: the fragments of one entry. *)
Definition fragments (key : string) (value : Filter) : list string :=
  match value with
  | Exist b => [(if b then "" else "!") ++ key]
  | Include l => [key ++ "=" ++ Array_join "," l]
  | Is (IsPrimitive p) => [key ++ "=" ++ Primitive_toString p]
  | Is (IsRegExp _) => []
  | Obj o =>
      match dollar_ne o with
      | Some v => [key ++ "!=" ++ IsFilter_toString v]
      | None =>
          match dollar_nin o with
          | Some l => [key ++ "!=" ++ Array_join "," l]
          | None =>
              (push_bound key ">" (dollar_gt o)
               ++ push_bound key "<" (dollar_lt o)
               ++ push_bound key ">=" (dollar_gte o)
               ++ push_bound key "<=" (dollar_lte o))%list
          end
      end
  end.

Definition mapKeys (f : string -> string) (o : list (string * Filter))
  : list (string * Filter) :=
  map (fun e => (f (fst e), snd e)) o.

Definition mapValues (f : Filter -> Filter) (o : list (string * Filter))
  : list (string * Filter) :=
  map (fun e => (fst e, f (snd e))) o.

(** [stringifyFilters]: keys and values are encoded, every entry gives its
    fragments, and all fragments are joined with [&]. *)
Definition stringifyFilters (filters : list (string * Filter)) : string :=
  join "&"
    (flat_map (fun e => fragments (fst e) (snd e))
       (mapValues encode (mapKeys encodeURIComponent filters))).

End Filtering.


(** ** The transport as the request loop sees it *)

Module Fetch.
Import JS.

(** A parsed JSON body. *)
#[local] Unset Elimination Schemes.
Inductive Json : Type :=
| JNull
| JBoolean (b : bool)
| JNumber (literal : string)
| JString (s : string)
| JArray (elements : list Json)
| JObject (members : list (string * Json)).
#[local] Set Elimination Schemes.

(** What the [catch] clause looks at in a thrown value: whether it is a
    [TypeError], whether it is an [Error], its [name] and [message], and
    the text [JSON.stringify] gives for it. *)
Record Thrown : Type := {
  isTypeError : bool;
  isError : bool;
  name : string;
  message : string;
  stringified : string
}.

(** The [SyntaxError] of [response.json()] on a body that is not JSON; an
    error object has no enumerable property, so it is stringified as an
    empty object. *)
Definition SyntaxError (msg : string) : Thrown :=
  {| isTypeError := false; isError := true; name := "SyntaxError";
     message := msg; stringified := "{}" |}.

Definition lower (c : ascii) : ascii :=
  let n := N_of_ascii c in
  (if (65 <=? n) && (n <=? 90) then ascii_of_N (n + 32) else c)%N.

Fixpoint toLowerCase (s : string) : string :=
  match s with
  | EmptyString => ""
  | String c rest => String (lower c) (toLowerCase rest)
  end.

(** A [Response]: [.status], [.statusText], the header list behind
    [.headers.get(name)], and the result of [.json()], which is the parsed
    body or the value it throws. *)
Record Response : Type := {
  status : Z;
  statusText : string;
  headers : list (string * string);
  json : Thrown + Json
}.

(** [response.ok]: the status is in the range 200-299. *)
Definition ok (response : Response) : bool :=
  ((200 <=? status response) && (status response <=? 299))%Z.

(** [headers.get(name)]: names are compared without case, several values
    of one name are joined with a comma and a space, and a name that is not
    there gives [null]. *)
Definition Headers_get (h : list (string * string)) (name : string)
  : option string :=
  match List.filter (fun e => (toLowerCase (fst e) =? toLowerCase name)%string) h with
  | [] => None
  | found => Some (join ", " (map snd found))
  end.

Record RequestInit : Type := {
  signal : option nat;
  request_headers : list (string * string)
}.

(** One call of [fetch] either gives a response or throws. *)
Inductive FetchResult : Type :=
| Responds (response : Response)
| Throws (e : Thrown).

(** The transport: the outcome of the [n]-th call (counted from 0) of
    [fetch(url, init)] in one run of the request loop. *)
Definition Transport : Type := string -> RequestInit -> nat -> FetchResult.

End Fetch.

(** ** [errors.ts] *)

Module Errors.
Import Fetch.

(** [ApiError] carries [status], the message and [{ response, body }];
    [MaxRetriesExceededError] extends it without adding anything; the
    other three extend [Error] and carry a message only. *)
Inductive Error : Type :=
| ApiError (status : Z) (message : string) (response : Response) (body : Json)
| MaxRetriesExceededError (status : Z) (message : string)
                          (response : Response) (body : Json)
| AbortError (message : string)
| NetworkError (message : string)
| UnknownError (message : string).

(** [e instanceof ApiError] *)
Definition instanceof_ApiError (e : Error) : bool :=
  match e with
  | ApiError _ _ _ _ | MaxRetriesExceededError _ _ _ _ => true
  | _ => false
  end.

(** [e instanceof MaxRetriesExceededError] *)
Definition instanceof_MaxRetriesExceededError (e : Error) : bool :=
  match e with
  | MaxRetriesExceededError _ _ _ _ => true
  | _ => false
  end.

End Errors.

(** ** The [backo2] package, as [index.ts] uses it *)

Module Backo2.

Record Backoff : Type := {
  ms : Z;
  max : Z;
  factor : Z;
  attempts : nat
}.

(** [new Backoff({ min, max })]: [opts.min || 100], [opts.max || 10000],
    factor 2, no jitter. *)
Definition new (min max : Z) : Backoff :=
  {| ms := if (min =? 0)%Z then 100 else min;
     max := if (max =? 0)%Z then 10000 else max;
     factor := 2;
     attempts := 0 |}.

(** [x | 0] *)
Definition ToInt32 (x : Z) : Z := (x + 2 ^ 31) mod 2 ^ 32 - 2 ^ 31.

(** [duration()]: [Math.min(ms * Math.pow(factor, attempts++), max) | 0];
    the result and the backoff with its counter advanced. *)
Definition duration (b : Backoff) : Z * Backoff :=
  (ToInt32 (Z.min (ms b * factor b ^ Z.of_nat (attempts b)) (max b)),
   {| ms := ms b; max := max b; factor := factor b;
      attempts := S (attempts b) |}).

End Backo2.

(** ** [index.ts] *)

Module Api.
Import JS Filtering Fetch Errors Backo2.

(** A property of an options object: not in the object, or in it with the
    value [undefined], [null] or a proper value. *)
Inductive Property (A : Type) : Type :=
| Missing
| Undefined
| Null
| Value (a : A).
Arguments Missing {A}.
Arguments Undefined {A}.
Arguments Null {A}.
Arguments Value {A} a.

(** A string or a number, where the code handles both alike. *)
Inductive Scalar : Type :=
| VString (s : string)
| VNumber (n : Z).

Definition Scalar_toString (v : Scalar) : string :=
  match v with
  | VString s => s
  | VNumber n => Number_toString n
  end.

(** Truthiness: the empty string and zero are falsy. *)
Definition truthy (v : Scalar) : bool :=
  match v with
  | VString s => negb (s =? "")%string
  | VNumber n => negb (n =? 0)%Z
  end.

(** lodash [compact]: the truthy elements. *)
Definition compact (l : list Scalar) : list Scalar := List.filter truthy l.

Definition join_scalars (sep : string) (l : list Scalar) : string :=
  join sep (map Scalar_toString l).

(** [ApiBaseOptions] and [ApiManyOptions] at run time: one object with
    the properties the interface reads.  ([query] is declared but never
    read.)  [maxRetries] can be in the object with the value [undefined],
    which the spread of the options copies like any other value. *)
Record Options : Type := {
  cancel : option nat;
  maxRetries : Property Z;
  limit : Property Z;
  page : Property Z;
  offset : Property Z;
  order : Property string;
  filter : option (list (string * Filter))
}.

(** The empty object [{}]. *)
Definition no_options : Options :=
  {| cancel := None; maxRetries := Missing; limit := Missing; page := Missing;
     offset := Missing; order := Missing; filter := None |}.

(** [CreateApiOptions] *)
Record CreateApiOptions : Type := {
  apiNullOn404 : option bool;
  apiMaxRetries : option Z;
  apiAuthenticationToken : option string
}.

Definition origin : string := "https://localhost:8000".

(** *** Path and query *)

(** [compact([endpoint, id]).join('/')], where [id] is [''] when the first
    argument is not an id. *)
Definition request_path (endpoint : string) (id : option Scalar) : string :=
  join_scalars "/"
    (compact [VString endpoint;
              match id with Some v => v | None => VString "" end]).

(** ['k' in options ? options.k : undefined] *)
Definition in_options {A B : Type} (f : A -> B) (p : Property A)
  : Property B :=
  match p with
  | Missing | Undefined => Undefined
  | Null => Null
  | Value a => Value (f a)
  end.

(** lodash [isNil] *)
Definition isNil {A : Type} (p : Property A) : bool :=
  match p with
  | Value _ => false
  | _ => true
  end.

(** lodash [omitBy]: the entries whose value does not satisfy [pred]. *)
Definition omitBy {A : Type} (o : list (string * A)) (pred : A -> bool)
  : list (string * A) :=
  List.filter (fun e => negb (pred (snd e))) o.

(** [querystring.escape] leaves the same characters as
    [encodeURIComponent] does. *)
Definition qsEscape (s : string) : string := encodeURIComponent s.

(** [querystring.stringify]: [key=value] for every entry, joined with [&];
    a string value is escaped, a number is written in decimal, and
    [undefined] or [null] gives an empty value. *)
Definition stringify (o : list (string * Property Scalar)) : string :=
  join "&"
    (map (fun e =>
            qsEscape (fst e) ++ "=" ++
            match snd e with
            | Value (VString s) => qsEscape s
            | Value (VNumber n) => Number_toString n
            | _ => ""
            end) o).

Definition queryObject (options : Options) : list (string * Property Scalar) :=
  omitBy [("limit", in_options VNumber (limit options));
          ("page", in_options VNumber (page options));
          ("offset", in_options VNumber (offset options));
          ("order", in_options VString (order options))] isNil.

(** [stringifyFilters(('filter' in options && options.filter) || {})] *)
Definition filterQuery (options : Options) : string :=
  stringifyFilters (match filter options with Some f => f | None => [] end).

(** [compact([stringify(queryObject), filterQuery]).join('&')] *)
Definition query (options : Options) : string :=
  join_scalars "&"
    (compact [VString (stringify (queryObject options));
              VString (filterQuery options)]).

(** *** The request loop *)

(** What the lazy promise closes over: the URL and the second argument of
    [fetch], [maxRetries] and [nullOn404]. *)
Record Request : Type := {
  url : string;
  init : RequestInit;
  budget : Z;
  nullable : bool
}.

Inductive Settled : Type :=
| Resolved (value : Json)
| Rejected (reason : Error).

(** A finished run: how the promise settled, how many times [fetch] was
    called, and the delays waited, in order: the arguments of the calls of
    [setTimeout], which the timer reads as milliseconds. *)
Record Run : Type := {
  settled : Settled;
  fetches : nat;
  delays : list number
}.

(** The [catch] clause. *)
Definition classify (e : Thrown) : Error :=
  if isTypeError e then NetworkError (message e)
  else if isError e && (name e =? "AbortError")%string
       then AbortError (message e)
       else UnknownError (stringified e).

Section Loop.

(** Unary [+] on a string. *)
Variable ToNumber : string -> number.

(** [+(response.headers.get('Retry-After') || backoff.duration())]: a
    header that is there and not empty is converted to a number and the
    backoff is left alone; otherwise the backoff gives the delay. *)
Definition retryAfter (response : Response) (backoff : Backoff)
  : number * Backoff :=
  match Headers_get (headers response) "Retry-After" with
  | Some (String c rest) => (ToNumber (String c rest), backoff)
  | _ => let (d, backoff') := duration backoff in (of_int d, backoff')
  end.

Variable fetch : Transport.
Variable request : Request.

(** The [do ... while (++retries <= maxRetries)] loop.  [retries] also
    numbers the calls of [fetch]; [fuel] bounds the iterations. *)
Fixpoint loop (fuel : nat) (retries : nat) (backoff : Backoff)
         (waited : list number) : option Run :=
  match fuel with
  | O => None
  | S fuel' =>
      let settle s :=
        Some {| settled := s; fetches := S retries; delays := waited |} in
      match fetch (url request) (init request) retries with
      | Throws e => settle (Rejected (classify e))
      | Responds response =>
          match json response with
          | inl e => settle (Rejected (classify e))
          | inr body =>
              if ok response then settle (Resolved body)
              else if (status response =? 404)%Z && nullable request
              then settle (Resolved JNull)
              else if (status response =? 429)%Z then
                let (delay, backoff') := retryAfter response backoff in
                let waited' := (waited ++ [delay])%list in
                if (Z.of_nat (S retries) <=? budget request)%Z
                then loop fuel' (S retries) backoff' waited'
                else Some {| settled :=
                               Rejected (MaxRetriesExceededError
                                           (status response)
                                           (statusText response)
                                           response body);
                             fetches := S retries;
                             delays := waited' |}
              else settle (Rejected (ApiError (status response)
                                              (statusText response)
                                              response body))
          end
      end
  end.

(** The body of the lazy promise: [retries = 0], a fresh
    [new Backoff({ min: 100, max: 20000 })], then the loop. *)
Definition execute : option Run :=
  loop (S (Z.to_nat (budget request))) 0 (Backo2.new 100 20000) [].

End Loop.

(** *** Definitions, handles and interfaces *)

(** [ResourceDefinition]; [one] is [undefined], a boolean, or an
    [ApiDefinition].  An entry of an [ApiDefinition] is a resource
    definition or a record class itself. *)
#[local] Unset Elimination Schemes.
Inductive ResourceDefinition : Type :=
| mkResourceDefinition (resource : string)
    (authenticated pagination filtering sortable : option bool)
    (one : One)
with One : Type :=
| OneUndefined
| OneBoolean (b : bool)
| OneApi (definition : list (string * Item))
with Item : Type :=
| ItemDefinition (definition : ResourceDefinition)
| ItemRecord (resource : string).
#[local] Set Elimination Schemes.

Definition ApiDefinition : Type := list (string * Item).

Definition one_of (definition : ResourceDefinition) : One :=
  match definition with
  | mkResourceDefinition _ _ _ _ _ one => one
  end.

(** The first argument of an interface call: nothing, an options object,
    or a string or number (an id). *)
Inductive FirstArgument : Type :=
| NoArgument
| OptionsArgument (options : Options)
| IdArgument (id : Scalar).

(** What a call returns: the lazy promise with the child interfaces
    assigned onto it as properties. *)
#[local] Unset Elimination Schemes.
Inductive Handle : Type :=
| mkHandle (promise : Request)
           (properties : list (string * (FirstArgument -> option Options -> Handle))).
#[local] Set Elimination Schemes.

Definition ApiInterface : Type := FirstArgument -> option Options -> Handle.
Definition Api : Type := list (string * ApiInterface).

Definition promise (h : Handle) : Request :=
  match h with mkHandle p _ => p end.

Definition properties (h : Handle) : Api :=
  match h with mkHandle _ ps => ps end.

(** [handle.key]: the property [key] of the handle, if it has one. *)
Fixpoint property (key : string) (api : Api) : option ApiInterface :=
  match api with
  | [] => None
  | (k, f) :: rest => if (k =? key)%string then Some f else property key rest
  end.

(** [api.key(first, second)] *)
Definition call (api : Api) (key : string) (first : FirstArgument)
           (second : option Options) : option Handle :=
  option_map (fun f => f first second) (property key api).

(** [handle.key(first, second)] on what an earlier call returned. *)
Definition chain (h : option Handle) (key : string) (first : FirstArgument)
           (second : option Options) : option Handle :=
  match h with
  | Some h => call (properties h) key first second
  | None => None
  end.

(** The function [createInterface] returns, given what
    [buildApi(path, one, apiOptions)] gives for [one] at a path.
    [maxRetries] is read from [{ ...apiOptions, ...options }] with the
    default 10: a property of [options] wins over that of [apiOptions] also
    when its value is [undefined], and the default then applies; [null] is
    kept and compares as 0 in [++retries <= maxRetries]. *)
Definition interface (endpoint : string) (apiOptions : CreateApiOptions)
           (children : string -> Api) : ApiInterface :=
  fun manyOptionsOrId baseOptions =>
    let (options, id) :=
      match manyOptionsOrId with
      | OptionsArgument o => (o, None)
      | IdArgument v =>
          (match baseOptions with Some o => o | None => no_options end, Some v)
      | NoArgument =>
          (match baseOptions with Some o => o | None => no_options end, None)
      end in
    let path := request_path endpoint id in
    let authorization :=
      match apiAuthenticationToken apiOptions with
      | Some (String c rest) => [("Authorization", "Bearer " ++ String c rest)]
      | _ => []
      end in
    mkHandle
      {| url := origin ++ "/" ++ path ++ "?" ++ query options;
         init := {| signal := cancel options;
                    request_headers :=
                      ([("Content-Type", "application/json");
                        ("Accept", "application/json")] ++ authorization)%list |};
         budget := match maxRetries options with
                   | Value n => n
                   | Undefined => 10
                   | Null => 0
                   | Missing => match apiMaxRetries apiOptions with
                                | Some n => n
                                | None => 10
                                end
                   end;
         nullable := match apiNullOn404 apiOptions with
                     | Some b => b
                     | None => false
                     end |}
      (children path).

(** [createInterface]: the children are those of [one] when
    [typeof one === 'object'].  The entries of [one] are mapped as in
    [buildApi]; a record class gets the definition with [one: true], which
    has no children. *)
Fixpoint createInterface (endpoint : string) (definition : ResourceDefinition)
         (apiOptions : CreateApiOptions) {struct definition} : ApiInterface :=
  match definition with
  | mkResourceDefinition _ _ _ _ _ one =>
      interface endpoint apiOptions
        (fun path =>
           match one with
           | OneApi d =>
               (fix build (d : list (string * Item)) : Api :=
                  match d with
                  | [] => []
                  | (key, item) :: rest =>
                      (key,
                       match item with
                       | ItemDefinition r =>
                           createInterface (path ++ "/" ++ key) r apiOptions
                       | ItemRecord _ =>
                           interface (path ++ "/" ++ key) apiOptions
                                     (fun _ => [])
                       end) :: build rest
                  end) d
           | _ => []
           end)
  end.

(** [isResourceDefinition]: an object with a [resource] property. *)
Definition isResourceDefinition (item : Item) : bool :=
  match item with
  | ItemDefinition _ => true
  | ItemRecord _ => false
  end.

(** [buildApi]: every key of the definition is mapped to the interface
    at [prefix/key]. *)
Definition buildApi (prefix : string) (definition : ApiDefinition)
           (options : CreateApiOptions) : Api :=
  map (fun e =>
         let (key, resourceOrDefinition) := (e : string * Item) in
         (key,
          match resourceOrDefinition with
          | ItemDefinition r =>
              createInterface (prefix ++ "/" ++ key) r options
          | ItemRecord resource =>
              createInterface (prefix ++ "/" ++ key)
                (mkResourceDefinition resource None (Some true) (Some true)
                   (Some true) (OneBoolean true))
                options
          end))
      definition.

Definition createApi (definition : ApiDefinition) (options : CreateApiOptions)
  : Api :=
  buildApi "" definition options.

(** *** Forcing a handle *)

Section Await.

Variable ToNumber : string -> number.

(** [JSON.parse] of the platform. *)
Variable JSON_parse : string -> option Json.

Definition is_JSON_whitespace (c : ascii) : bool :=
  existsb (Ascii.eqb c) [" "%char; "009"%char; "010"%char; "013"%char].

(** A JSON text starts, after white space, with a brace, a bracket, a
    double quote (character 34), a minus sign, a digit, or the first
    letter of [true], [false] or [null]. *)
Fixpoint starts_JSON_value (text : string) : bool :=
  match text with
  | EmptyString => false
  | String c rest =>
      if is_JSON_whitespace c then starts_JSON_value rest
      else existsb (Ascii.eqb c)
             ("034"%char :: list_ascii_of_string "{[-0123456789tfn")
  end.

(** [response.json()] for a response made from a text: a text that does
    not start as a JSON value throws a [SyntaxError]; for one that does,
    the parser of the platform decides. *)
Definition json_of_text (text : string) : Thrown + Json :=
  if starts_JSON_value text then
    match JSON_parse text with
    | Some v => inr v
    | None => inl (SyntaxError "Unexpected end of JSON input")
    end
  else inl (SyntaxError "Unexpected token").

(** [new Response(body, { status })] for a string body. *)
Definition new_Response (body : string) (status : Z) : Response :=
  {| status := status;
     statusText := "";
     headers := [("content-type", "text/plain;charset=UTF-8")];
     json := json_of_text body |}.

(** [testFetch]: [new Response(args[0], { status: 200 })] *)
Definition testFetch : Transport :=
  fun url _ _ => Responds (new_Response url 200).

(** Forcing the lazy promise of a handle over a given transport. *)
Definition await_over (fetch : Transport) (h : Handle) : option Run :=
  execute ToNumber fetch (promise h).

(** Forcing it as the source is written: over [testFetch]. *)
Definition await (h : Handle) : option Run := await_over testFetch h.

End Await.

End Api.

(** ** [v1/index.ts] *)

Module V1.
Import Api.

(** The schema passed to [createApi]: [book] and [character] are resource
    definitions with one child each, [quote] and [chapter] are record
    classes. *)
Definition schema : ApiDefinition :=
  [("book",
    ItemDefinition
      (mkResourceDefinition "Book" None None None None
         (OneApi [("chapter", ItemRecord "Chapter")])));
   ("character",
    ItemDefinition
      (mkResourceDefinition "Character" None None None None
         (OneApi [("quote", ItemRecord "Quote")])));
   ("quote", ItemRecord "Quote");
   ("chapter", ItemRecord "Chapter")].

Definition v1 (options : CreateApiOptions) : Api := createApi schema options.

End V1.

(** * Properties *)

(** ** Strings: characters, joining and splitting *)

Module StringFacts.
Import JS.

(** Every character of the string satisfies [p]. *)
Fixpoint all_chars (p : ascii -> bool) (s : string) : bool :=
  match s with
  | EmptyString => true
  | String c rest => p c && all_chars p rest
  end.

(** The last character is [c]. *)
Fixpoint ends_with (c : ascii) (s : string) : bool :=
  match s with
  | EmptyString => false
  | String d EmptyString => Ascii.eqb d c
  | String _ rest => ends_with c rest
  end.

(** What is after the first [c]. *)
Fixpoint after_first (c : ascii) (s : string) : string :=
  match s with
  | EmptyString => ""
  | String d rest => if Ascii.eqb d c then rest else after_first c rest
  end.

Definition other_than (c : ascii) : ascii -> bool :=
  fun d => negb (Ascii.eqb d c).

(** What [encodeURIComponent] writes: unescaped characters and [%]. *)
Definition written (c : ascii) : bool := uriUnescaped c || Ascii.eqb c "%".

Lemma append_assoc (s t u : string) : (s ++ t) ++ u = s ++ t ++ u.
Proof. induction s as [|c s IH]; simpl; [reflexivity | now rewrite IH]. Qed.

Lemma all_chars_app p s t :
  all_chars p (s ++ t) = all_chars p s && all_chars p t.
Proof.
  induction s as [|c s IH]; simpl; [reflexivity|].
  now rewrite IH, andb_assoc.
Qed.

Lemma all_chars_weaken (p q : ascii -> bool) s :
  (forall c, p c = true -> q c = true) ->
  all_chars p s = true -> all_chars q s = true.
Proof.
  intros Hpq. induction s as [|c s IH]; simpl; [reflexivity|].
  intros H. apply andb_true_iff in H as [Hc Hs].
  now rewrite (Hpq _ Hc), IH.
Qed.

Lemma written_other_than sep :
  written sep = false -> forall c, written c = true -> other_than sep c = true.
Proof.
  intros Hsep c Hc. unfold other_than.
  destruct (Ascii.eqb_spec c sep) as [->|]; [congruence | reflexivity].
Qed.

Lemma unescaped_written c : uriUnescaped c = true -> written c = true.
Proof. unfold written. now intros ->. Qed.

Lemma percent_written c : all_chars written (percent c) = true.
Proof. destruct c as [[] [] [] [] [] [] [] []]; reflexivity. Qed.

Lemma percent_decodes c :
  let n := N_of_ascii c in
  hex_value (hex_digit (n / 16)) = Some (n / 16)%N
  /\ hex_value (hex_digit (n mod 16)) = Some (n mod 16)%N
  /\ ascii_of_N (16 * (n / 16) + n mod 16) = c.
Proof. destruct c as [[] [] [] [] [] [] [] []]; repeat split; reflexivity. Qed.

Lemma encodeURIComponent_written s :
  all_chars written (encodeURIComponent s) = true.
Proof.
  induction s as [|c s IH]; [reflexivity|].
  cbn [encodeURIComponent]. destruct (uriUnescaped c) eqn:Hc.
  - cbn [all_chars]. now rewrite (unescaped_written _ Hc), IH.
  - rewrite all_chars_app, IH, andb_true_r. apply (percent_written c).
Qed.

(** Decoding undoes encoding. *)
Lemma decode_encode s :
  decodeURIComponent (encodeURIComponent s) = Some s.
Proof.
  induction s as [|c s IH]; simpl; [reflexivity|].
  destruct (uriUnescaped c) eqn:Hc.
  - simpl. destruct (Ascii.eqb_spec c "%") as [->|_]; [discriminate|].
    now rewrite IH.
  - destruct (percent_decodes c) as (Hh & Hl & Hv).
    unfold percent. cbn [append decodeURIComponent].
    rewrite Ascii.eqb_refl, Hh, Hl, IH. cbn [option_map]. now rewrite Hv.
Qed.

(** A string of unescaped characters is its own encoding. *)
Lemma encode_unescaped s :
  all_chars uriUnescaped s = true -> encodeURIComponent s = s.
Proof.
  induction s as [|c s IH]; simpl; [reflexivity|].
  intros H. apply andb_true_iff in H as [Hc Hs].
  now rewrite Hc, IH.
Qed.

Lemma decode_unescaped s :
  all_chars uriUnescaped s = true -> decodeURIComponent s = Some s.
Proof.
  intros H. rewrite <- (encode_unescaped s H) at 1. apply decode_encode.
Qed.

(** The decimal form of an integer has digits and a minus sign only. *)
Lemma uint_unescaped d :
  all_chars uriUnescaped (NilEmpty.string_of_uint d) = true.
Proof. induction d; simpl; auto. Qed.

Lemma Number_toString_unescaped n :
  all_chars uriUnescaped (Number_toString n) = true.
Proof.
  unfold Number_toString, NilZero.string_of_int, NilZero.string_of_uint.
  destruct (Z.to_int n) as [d|d]; destruct d; simpl;
    try reflexivity; apply uint_unescaped.
Qed.

Lemma split_without sep s :
  all_chars (other_than sep) s = true -> split sep s = [s].
Proof.
  induction s as [|c s IH]; simpl; [reflexivity|].
  intros H. apply andb_true_iff in H as [Hc Hs].
  unfold other_than in Hc. apply negb_true_iff in Hc.
  now rewrite Hc, (IH Hs).
Qed.

Lemma split_app sep s t :
  all_chars (other_than sep) s = true ->
  split sep (s ++ String sep t) = s :: split sep t.
Proof.
  induction s as [|c s IH]; simpl.
  - intros _. now rewrite Ascii.eqb_refl.
  - intros H. apply andb_true_iff in H as [Hc Hs].
    unfold other_than in Hc. apply negb_true_iff in Hc.
    now rewrite Hc, (IH Hs).
Qed.

(** Splitting undoes joining, for a list that is not empty and whose
    pieces are free of the separator. *)
Lemma split_join sep pieces :
  pieces <> [] ->
  Forall (fun p => all_chars (other_than sep) p = true) pieces ->
  split sep (join (String sep "") pieces) = pieces.
Proof.
  intros Hne Hall. induction Hall as [|p ps Hp Hps IH]; [congruence|].
  destruct ps as [|q ps].
  - simpl. now apply split_without.
  - change (join (String sep "") (p :: q :: ps))
      with (p ++ String sep (join (String sep "") (q :: ps))).
    rewrite (split_app _ _ _ Hp). f_equal. apply IH. discriminate.
Qed.

Lemma after_first_app c s t :
  all_chars (other_than c) s = true ->
  after_first c (s ++ String c t) = t.
Proof.
  induction s as [|d s IH]; simpl.
  - intros _. now rewrite Ascii.eqb_refl.
  - intros H. apply andb_true_iff in H as [Hd Hs].
    unfold other_than in Hd. apply negb_true_iff in Hd.
    now rewrite Hd, (IH Hs).
Qed.

Lemma ends_with_app c s t :
  ends_with c (s ++ t) =
  match t with EmptyString => ends_with c s | _ => ends_with c t end.
Proof.
  induction s as [|d s IH]; simpl.
  - now destruct t.
  - destruct t as [|e t].
    + destruct s; simpl in *; [reflexivity | exact IH].
    + destruct s as [|d' s]; simpl in *; [reflexivity | exact IH].
Qed.

Lemma ends_with_other c s :
  all_chars (other_than c) s = true -> ends_with c s = false.
Proof.
  induction s as [|d s IH]; simpl; [reflexivity|].
  intros H. apply andb_true_iff in H as [Hd Hs].
  unfold other_than in Hd. apply negb_true_iff in Hd.
  destruct s; [exact Hd | now apply IH].
Qed.

End StringFacts.

(** ** The filter encoder *)

Module FilterFacts.
Import JS Filtering StringFacts.

(** Reading an inclusion fragment back: the part after [=] is split on
    commas and every piece is percent-decoded. *)
Fixpoint decode_all (pieces : list string) : option (list string) :=
  match pieces with
  | [] => Some []
  | p :: ps =>
      match decodeURIComponent p, decode_all ps with
      | Some x, Some xs => Some (x :: xs)
      | _, _ => None
      end
  end.

Definition recover (fragment : string) : option (list string) :=
  decode_all (split "," (after_first "=" fragment)).

(** The fragments of a whole filter map, before they are joined. *)
Definition all_fragments (filters : list (string * Filter)) : list string :=
  flat_map (fun e => fragments (fst e) (snd e))
           (mapValues encode (mapKeys encodeURIComponent filters)).

Lemma all_fragments_app f g :
  all_fragments (f ++ g) = (all_fragments f ++ all_fragments g)%list.
Proof.
  unfold all_fragments, mapValues, mapKeys.
  now rewrite !map_app, flat_map_app.
Qed.

(** On a primitive, [encode] is [encode_element]. *)
Lemma encode_element_is_encode p :
  encode (Is (IsPrimitive p)) = Is (IsPrimitive (encode_element p)).
Proof. now destruct p. Qed.

Lemma encoded_free_of sep s :
  written sep = false ->
  all_chars (other_than sep) (encodeURIComponent s) = true.
Proof.
  intros Hsep.
  apply (all_chars_weaken written); [apply (written_other_than _ Hsep)|].
  apply encodeURIComponent_written.
Qed.

Lemma piece_free_of_comma p :
  all_chars (other_than ",") (join_element (encode_element p)) = true.
Proof.
  destruct p as [s|n|]; simpl; [now apply encoded_free_of| |reflexivity].
  apply (all_chars_weaken uriUnescaped), Number_toString_unescaped.
  intros c Hc. apply (written_other_than ","); [reflexivity|].
  now apply unescaped_written.
Qed.

Lemma piece_decodes p :
  decodeURIComponent (join_element (encode_element p))
  = Some (join_element p).
Proof.
  destruct p as [s|n|]; simpl; [apply decode_encode| |reflexivity].
  apply decode_unescaped, Number_toString_unescaped.
Qed.

Lemma decode_all_pieces l :
  decode_all (map (fun p => join_element (encode_element p)) l)
  = Some (map join_element l).
Proof.
  induction l as [|p l IH]; simpl; [reflexivity|].
  now rewrite piece_decodes, IH.
Qed.

(** The fragment of a negation is the encoded key, [!=], and the value as
    a template literal writes it, with no encoding. *)
Lemma negation_fragment key v :
  stringifyFilters [(key, NotFilter v)]
  = encodeURIComponent key ++ "!=" ++ IsFilter_toString v.
Proof. reflexivity. Qed.

End FilterFacts.

Import JS Filtering StringFacts FilterFacts.

(** C3, at the inputs where the code departs from it.  The fragment of a
    negation is the encoded field, [!=], and the value as it is written
    without any encoding.  For the filter [{ name: { $ne: 'abc' } }] this
    is [name!=abc], as the claim says; but [{ name: { $ne: 'a b' } }] gives
    [name!=a b] and the pattern [/abc/i] gives [name!=/abc/i], while the
    encoded forms of these values are [a%20b] and [%2Fabc%2Fi], which is
    what the same values give as plain equality filters. *)
Theorem C3_negation_value_is_not_encoded :
  (forall key v,
      stringifyFilters [(key, NotFilter v)]
      = encodeURIComponent key ++ "!=" ++ IsFilter_toString v)
  /\ stringifyFilters [("name", NotFilter (IsPrimitive (PString "abc")))]
     = "name!=abc"
  /\ stringifyFilters [("name", NotFilter (IsPrimitive (PString "a b")))]
     = "name!=a b"
  /\ stringifyFilters
       [("name", NotFilter (IsRegExp {| source := "abc"; flags := "i" |}))]
     = "name!=/abc/i"
  /\ stringifyFilters [("name", Is (IsPrimitive (PString "a b")))]
     = "name=a%20b"
  /\ stringifyFilters
       [("name", Is (IsRegExp {| source := "abc"; flags := "i" |}))]
     = "name=%2Fabc%2Fi".
Proof. repeat split; reflexivity. Qed.

(** C8: a numeric comparison gives one fragment for every bound it has, in
    the order [>], [<], [>=], [<=]; these are fragments of the top level,
    joined with [&] like those of the other fields, and all bounds that are
    there are written; [{ words: { $gt: 20 } }] gives [words>20]. *)
Theorem C8_comparison_fragments :
  (forall before after key gt lt gte lte,
      let k := encodeURIComponent key in
      stringifyFilters
        (before ++ (key, ComparisonFilter gt lt gte lte) :: after)
      = join "&"
          (all_fragments before
           ++ push_bound k ">" gt ++ push_bound k "<" lt
           ++ push_bound k ">=" gte ++ push_bound k "<=" lte
           ++ all_fragments after)%list)
  /\ (forall key a b c d,
         let k := encodeURIComponent key in
         stringifyFilters
           [(key, ComparisonFilter (Some a) (Some b) (Some c) (Some d))]
         = k ++ ">" ++ Number_toString a ++ "&" ++
           k ++ "<" ++ Number_toString b ++ "&" ++
           k ++ ">=" ++ Number_toString c ++ "&" ++
           k ++ "<=" ++ Number_toString d)
  /\ stringifyFilters [("words", ComparisonFilter (Some 20) None None None)]
     = "words>20".
Proof.
  split; [|split; [|reflexivity]].
  2:{ intros key a b c d k. cbn. fold k. now rewrite !append_assoc. }
  intros before after key gt lt gte lte k.
  change (stringifyFilters ?f) with (join "&" (all_fragments f)).
  rewrite all_fragments_app.
  change ((key, ComparisonFilter gt lt gte lte) :: after)
    with ([(key, ComparisonFilter gt lt gte lte)] ++ after)%list.
  rewrite all_fragments_app. cbn [all_fragments mapKeys mapValues map flat_map
    fst snd encode ComparisonFilter canEncode fragments dollar_ne dollar_nin
    dollar_gt dollar_lt dollar_gte dollar_lte].
  now rewrite app_nil_r, <- !app_assoc.
Qed.

(** C9, as amended: an inclusion list gives [field=v1,v2,...], the values
    encoded one by one and joined with commas; and for a list that is not
    empty, splitting the value part on commas and decoding every piece gives
    back the values in order, each in the string form [join] writes (a
    string as it is, a number in decimal, [null] as the empty string), so a
    list of strings comes back as it was. *)
Theorem C9_inclusion_list_roundtrip (key : string) (l : list Primitive) :
  stringifyFilters [(key, Include l)]
  = encodeURIComponent key ++ "="
    ++ join "," (map (fun p => join_element (encode_element p)) l)
  /\ (l <> [] ->
      recover (stringifyFilters [(key, Include l)]) = Some (map join_element l))
  /\ (forall ss, l = map PString ss -> ss <> [] ->
      recover (stringifyFilters [(key, Include l)]) = Some ss).
Proof.
  assert (Hfrag : stringifyFilters [(key, Include l)]
                  = encodeURIComponent key ++ "="
                    ++ join "," (map (fun p => join_element (encode_element p)) l)).
  { cbn. unfold Array_join. now rewrite map_map. }
  assert (Hrec : l <> [] ->
                 recover (stringifyFilters [(key, Include l)])
                 = Some (map join_element l)).
  { intros Hne. rewrite Hfrag. unfold recover.
    change ("=" ++ ?v) with (String "=" v).
    rewrite after_first_app by (now apply encoded_free_of).
    rewrite split_join.
    - apply decode_all_pieces.
    - destruct l; [congruence | discriminate].
    - apply Forall_forall. intros p Hp. apply in_map_iff in Hp as (x & <- & _).
      apply piece_free_of_comma. }
  repeat split; [exact Hfrag | exact Hrec |].
  intros ss -> Hss. rewrite Hrec.
  - f_equal. rewrite map_map. simpl. apply map_id.
  - destruct ss; [congruence | discriminate].
Qed.

(** C9 at two lists that are not empty: one of strings, and one with a
    number and [null]. *)
Lemma C9_inclusion_list_roundtrip_witness :
  recover (stringifyFilters [("name", Include [PString "a,b"; PString "c d"])])
  = Some ["a,b"; "c d"]
  /\ recover (stringifyFilters [("id", Include [PNumber 7; PNull])])
     = Some ["7"; ""].
Proof.
  split.
  - destruct (C9_inclusion_list_roundtrip
                "name" [PString "a,b"; PString "c d"]) as (_ & _ & Hstrings).
    apply Hstrings; [reflexivity | discriminate].
  - destruct (C9_inclusion_list_roundtrip "id" [PNumber 7; PNull])
      as (_ & Hany & _).
    apply Hany. discriminate.
Defined.

(** C9 as stated fails at the empty list: [{ name: [] }] gives [name=], and
    splitting the empty value part gives one empty piece, not no piece. *)
Lemma C9_empty_list_is_not_recovered :
  stringifyFilters [("name", Include [])] = "name="
  /\ recover (stringifyFilters [("name", Include [])]) = Some [""]
  /\ recover (stringifyFilters [("name", Include [])])
     <> Some (map join_element []).
Proof. split; [reflexivity | split; [reflexivity | discriminate]]. Qed.

(** ** The query composer *)

Module QueryFacts.
Import Api.

(** A field that has a value is written [key=value]; one that is missing,
    [undefined] or [null] is not written. *)
Definition present {A : Type} (key : string) (show : A -> string)
           (p : Property A) : list string :=
  match p with
  | Value a => [key ++ "=" ++ show a]
  | _ => []
  end.

Definition fields (o : Options) : list string :=
  (present "limit" Number_toString (limit o)
   ++ present "page" Number_toString (page o)
   ++ present "offset" Number_toString (offset o)
   ++ present "order" qsEscape (order o))%list.

Lemma stringify_queryObject o :
  stringify (queryObject o) = join "&" (fields o).
Proof.
  unfold fields, queryObject.
  destruct (limit o), (page o), (offset o), (order o); reflexivity.
Qed.

Lemma join_not_empty sep x l : x <> "" -> join sep (x :: l) <> "".
Proof.
  intros Hx. destruct x as [|c x]; [congruence|].
  destruct l; simpl; discriminate.
Qed.

(** A joined list does not end in the separator when its pieces are not
    empty and are free of the separator. *)
Lemma join_ends c l :
  Forall (fun x => x <> "" /\ all_chars (other_than c) x = true) l ->
  ends_with c (join (String c "") l) = false.
Proof.
  induction 1 as [|x l [Hx Hc] Hl IH]; [reflexivity|].
  destruct l as [|y l]; [now apply ends_with_other|].
  change (join (String c "") (x :: y :: l))
    with (x ++ String c (join (String c "") (y :: l))).
  rewrite ends_with_app.
  inversion Hl as [|? ? [Hy _] _]; subst.
  pose proof (join_not_empty (String c "") y l Hy) as Hj.
  destruct (join (String c "") (y :: l)) eqn:E; [congruence|].
  exact IH.
Qed.

Lemma present_field {A} key (show : A -> string) p :
  key <> "" ->
  all_chars (other_than "&") key = true ->
  (forall a, all_chars (other_than "&") (show a) = true) ->
  Forall (fun x => x <> "" /\ all_chars (other_than "&") x = true)
         (present key show p).
Proof.
  intros Hk Hkey Hshow. destruct p; constructor; [|constructor].
  split.
  - destruct key; [congruence | discriminate].
  - now rewrite !all_chars_app, Hkey, Hshow.
Qed.

Lemma Number_toString_free n :
  all_chars (other_than "&") (Number_toString n) = true.
Proof.
  apply (all_chars_weaken uriUnescaped), Number_toString_unescaped.
  intros c Hc. apply (written_other_than "&"); [reflexivity|].
  now apply unescaped_written.
Qed.

Lemma fields_end o : ends_with "&" (join "&" (fields o)) = false.
Proof.
  apply join_ends. unfold fields.
  repeat (apply Forall_app; split);
    apply present_field;
    try discriminate; try reflexivity;
    try apply Number_toString_free.
  intros s. now apply encoded_free_of.
Qed.

Lemma query_cases o :
  query o =
  match filterQuery o with
  | EmptyString => stringify (queryObject o)
  | String _ _ =>
      match stringify (queryObject o) with
      | EmptyString => filterQuery o
      | String _ _ => stringify (queryObject o) ++ "&" ++ filterQuery o
      end
  end.
Proof.
  unfold query.
  destruct (stringify (queryObject o)), (filterQuery o); reflexivity.
Qed.

End QueryFacts.

Import Api QueryFacts.

(** C7, as amended: a pagination or sort field that is missing, [undefined]
    or [null] is not written; the others are written as [key=value] in the
    order limit, page, offset, order; the filter fragment comes last, after
    an [&] only when both parts are there; and the composer adds no [&] at
    the end: the query string ends in [&] exactly when the filter fragment
    does. *)
Theorem C7_query_composition (o : Options) :
  stringify (queryObject o) = join "&" (fields o)
  /\ query o =
     match filterQuery o with
     | EmptyString => join "&" (fields o)
     | String _ _ =>
         match fields o with
         | [] => filterQuery o
         | _ :: _ => join "&" (fields o) ++ "&" ++ filterQuery o
         end
     end
  /\ ends_with "&" (query o) = ends_with "&" (filterQuery o).
Proof.
  pose proof (stringify_queryObject o) as Hs.
  pose proof (query_cases o) as Hq. rewrite Hs in Hq.
  pose proof (fields_end o) as He.
  split; [exact Hs | split].
  - rewrite Hq. destruct (filterQuery o); [reflexivity|].
    destruct (fields o) as [|x l] eqn:Hf; [reflexivity|].
    destruct (join "&" (x :: l)) eqn:Hj; [|reflexivity].
    exfalso. revert Hj. apply join_not_empty.
    assert (Hin : In x (fields o)) by (rewrite Hf; now left).
    unfold fields, present in Hin.
    destruct (limit o), (page o), (offset o), (order o); simpl in Hin;
      intuition (subst; discriminate).
  - rewrite Hq. destruct (filterQuery o) as [|c f]; [exact He|].
    destruct (join "&" (fields o)) as [|d s]; [reflexivity|].
    rewrite ends_with_app. reflexivity.
Qed.

(** C7 as stated fails when the filter fragment itself ends in [&], which
    the encoder gives for a map whose last field has the empty name and the
    filter [true]: the query string is then [a&]. *)
Lemma C7_query_can_end_in_ampersand :
  let o := {| cancel := None; maxRetries := Missing; limit := Missing;
              page := Missing; offset := Missing; order := Missing;
              filter := Some [("a", Exist true); ("", Exist true)] |} in
  query o = "a&" /\ ends_with "&" (query o) = true.
Proof. split; reflexivity. Qed.

(** ** Handles and chaining *)

Module HandleFacts.
Import Api.

(** The id and the options a call is read as having. *)
Definition id_of (first : FirstArgument) : option Scalar :=
  match first with
  | IdArgument v => Some v
  | _ => None
  end.

Definition options_of (first : FirstArgument) (second : option Options)
  : Options :=
  match first with
  | OptionsArgument o => o
  | _ => match second with Some o => o | None => no_options end
  end.

(** The call shape of an id followed by an options object. *)
Definition id_and_options (first : FirstArgument) (second : option Options)
  : bool :=
  match first, second with
  | IdArgument _, Some _ => true
  | _, _ => false
  end.

(** [createInterface] in the words of the source: the children are
    [buildApi(path, one, apiOptions)] when [one] is an object. *)
Lemma createInterface_properties endpoint definition apiOptions first second :
  properties (createInterface endpoint definition apiOptions first second)
  = match one_of definition with
    | OneApi d => buildApi (request_path endpoint (id_of first)) d apiOptions
    | _ => []
    end.
Proof.
  destruct definition as [res au pa fi so one].
  destruct one as [|b|d]; destruct first as [|o|v]; try reflexivity;
    cbn [createInterface interface properties one_of id_of];
    induction d as [|[key item] rest IH]; try reflexivity;
    cbn [buildApi map]; f_equal; try exact IH; now destruct item.
Qed.

Lemma createInterface_url endpoint definition apiOptions first second :
  url (promise (createInterface endpoint definition apiOptions first second))
  = origin ++ "/" ++ request_path endpoint (id_of first) ++ "?"
    ++ query (options_of first second).
Proof.
  destruct definition as [res au pa fi so one].
  destruct first; reflexivity.
Qed.

Lemma buildApi_keys prefix definition options :
  map fst (buildApi prefix definition options) = map fst definition.
Proof.
  unfold buildApi. rewrite map_map. apply map_ext. now intros [key item].
Qed.

(** The path of a call with an id that is truthy, and of one without. *)
Lemma request_path_cases endpoint id :
  endpoint <> "" ->
  request_path endpoint id =
  match id with
  | Some v => if truthy v then endpoint ++ "/" ++ Scalar_toString v
              else endpoint
  | None => endpoint
  end.
Proof.
  intros He. unfold request_path, compact, join_scalars.
  destruct endpoint as [|c e]; [congruence|].
  destruct id as [v|]; [|reflexivity].
  cbn [List.filter truthy String.eqb negb]. now destruct (truthy v).
Qed.

End HandleFacts.

Import HandleFacts V1.

(** C2, as amended: for every call shape, the id followed by options
    included, the handle has the child accessors of the endpoint whenever
    [one] of its definition is an object, and none otherwise; the call
    shape has no part in it. *)
Theorem C2_children_whatever_the_call_shape
        endpoint definition apiOptions first second :
  map fst (properties (createInterface endpoint definition apiOptions
                                       first second))
  = match one_of definition with
    | OneApi d => map fst d
    | _ => []
    end.
Proof.
  rewrite createInterface_properties.
  destruct (one_of definition); try reflexivity. apply buildApi_keys.
Qed.

(** C2 as stated fails on [v1().book(1, {})]: the call has the id and
    options shape, and the handle has the accessor [chapter], which gives
    the request for [/book/1/chapter]. *)
Lemma C2_id_and_options_handle_has_children :
  let api := v1 {| apiNullOn404 := None; apiMaxRetries := None;
                   apiAuthenticationToken := None |} in
  let first := IdArgument (VNumber 1) in
  let second := Some no_options in
  id_and_options first second = true
  /\ option_map (fun h => map fst (properties h))
                (call api "book" first second)
     = Some ["chapter"]
  /\ option_map (fun h => url (promise h))
                (chain (call api "book" first second) "chapter" NoArgument None)
     = Some "https://localhost:8000//book/1/chapter?".
Proof. repeat split. Qed.

(** C5, at the input where the code departs from it.  With the id 1,
    [book(1).chapter()] asks for [/book/1/chapter].  With the id 0, which
    [compact] drops as falsy, [book(0)] asks for [/book], the request of
    the index call [book()], and [book(0).chapter()] asks for
    [/book/chapter]: the id and its separator are left out although an id
    was supplied. *)
Theorem C5_id_zero_is_dropped :
  let api := v1 {| apiNullOn404 := None; apiMaxRetries := None;
                   apiAuthenticationToken := None |} in
  let requested h := option_map (fun h => url (promise h)) h in
  requested (chain (call api "book" (IdArgument (VNumber 1)) None)
                   "chapter" NoArgument None)
  = Some "https://localhost:8000//book/1/chapter?"
  /\ requested (call api "book" (IdArgument (VNumber 0)) None)
     = Some "https://localhost:8000//book?"
  /\ requested (call api "book" NoArgument None)
     = Some "https://localhost:8000//book?"
  /\ requested (chain (call api "book" (IdArgument (VNumber 0)) None)
                      "chapter" NoArgument None)
     = Some "https://localhost:8000//book/chapter?".
Proof. repeat split. Qed.

(** The part of C5 that holds: the request of a child accessor is for the
    path of the parent call, [/], the key of the child, and then the id of
    the child call when that is truthy. *)
Lemma child_request_url prefix definition options key f first second :
  property key (buildApi prefix definition options) = Some f ->
  url (promise (f first second))
  = origin ++ "/" ++ request_path (prefix ++ "/" ++ key) (id_of first) ++ "?"
    ++ query (options_of first second).
Proof.
  induction definition as [|[k item] rest IH]; [discriminate|].
  cbn [buildApi map property].
  destruct (String.eqb_spec k key) as [->|_]; [|exact IH].
  intros [= <-].
  destruct item; [apply createInterface_url | now destruct first].
Qed.

(** ** The request loop *)

Module LoopFacts.
Import Fetch Errors Backo2 Api.

(** The backoff of a run after [j] durations were taken from it. *)
Fixpoint drawn (j : nat) : Backoff :=
  match j with
  | O => Backo2.new 100 20000
  | S j' => snd (duration (drawn j'))
  end.

Lemma drawn_state j :
  drawn j = {| ms := 100; max := 20000; factor := 2; attempts := j |}.
Proof.
  induction j as [|j IH]; [reflexivity|].
  cbn [drawn]. now rewrite IH.
Qed.

Lemma ToInt32_small x : 0 <= x <= 20000 -> ToInt32 x = x.
Proof.
  intros Hx. unfold ToInt32.
  rewrite Z.mod_small; [lia|].
  change (2 ^ 31) with 2147483648. change (2 ^ 32) with 4294967296. lia.
Qed.

Lemma duration_bounds j :
  100 <= Z.min (100 * 2 ^ Z.of_nat j) 20000 <= 20000.
Proof.
  assert (0 < 2 ^ Z.of_nat j) by (apply Z.pow_pos_nonneg; lia). lia.
Qed.

Lemma duration_drawn j :
  duration (drawn j)
  = (Z.min (100 * 2 ^ Z.of_nat j) 20000, drawn (S j)).
Proof.
  rewrite (drawn_state (S j)), drawn_state. unfold duration.
  cbn [ms max factor attempts]. rewrite ToInt32_small; [reflexivity|].
  pose proof (duration_bounds j). lia.
Qed.

Section Run.

Variable ToNumber : string -> number.
Variable fetch : Transport.
Variable request : Request.

(** The calls of [fetch] numbered [from], [from + 1], ... give the
    responses [rs], and each of them has status 429 and a body that
    parses. *)
Definition throttled (from : nat) (rs : list Response) : Prop :=
  forall i r, nth_error rs i = Some r ->
    fetch (url request) (init request) (from + i)%nat = Responds r
    /\ status r = 429
    /\ exists body, json r = inr body.

(** The delays these responses make the loop wait, and the backoff
    after them. *)
Fixpoint waits (rs : list Response) (b : Backoff) : list number * Backoff :=
  match rs with
  | [] => ([], b)
  | r :: rs' =>
      let (d, b') := retryAfter ToNumber r b in
      let (ds, b'') := waits rs' b' in
      (d :: ds, b'')
  end.

Lemma throttled_tail from r rs :
  throttled from (r :: rs) -> throttled (S from) rs.
Proof.
  intros H i x Hx.
  replace (S from + i)%nat with (from + S i)%nat by lia.
  now apply (H (S i)).
Qed.

(** Going through throttled responses within the budget. *)
Lemma loop_throttled rs : forall fuel retries b waited,
  throttled retries rs ->
  (retries + List.length rs <= Z.to_nat (budget request))%nat ->
  loop ToNumber fetch request (List.length rs + fuel) retries b waited
  = loop ToNumber fetch request fuel (retries + List.length rs)%nat
         (snd (waits rs b)) (waited ++ fst (waits rs b)).
Proof.
  induction rs as [|r rs IH]; intros fuel retries b waited Hrs Hle.
  - cbn. now rewrite Nat.add_0_r, app_nil_r.
  - destruct (Hrs 0%nat r eq_refl) as (Hf & Hs & body & Hb).
    rewrite Nat.add_0_r in Hf.
    cbn [List.length Nat.add loop waits]. rewrite Hf, Hb.
    unfold ok. rewrite Hs. cbn [Z.leb Z.eqb Z.compare Pos.compare
      Pos.compare_cont andb Pos.eqb].
    destruct (retryAfter ToNumber r b) as [d b'].
    replace (Z.of_nat (S retries) <=? budget request)%Z with true
      by (symmetry; apply Z.leb_le; cbn [List.length] in Hle; lia).
    rewrite IH; [|now apply (throttled_tail _ r) | cbn [List.length] in Hle; lia].
    destruct (waits rs b') as [ds b'']. cbn [fst snd].
    now rewrite Nat.add_succ_r, <- app_assoc.
Qed.

(** The three ways a response that is not a success ends the loop. *)
Lemma loop_api_error fuel k b waited r body :
  fetch (url request) (init request) k = Responds r ->
  json r = inr body ->
  ok r = false ->
  (status r = 404 -> nullable request = false) ->
  status r <> 429 ->
  loop ToNumber fetch request (S fuel) k b waited
  = Some {| settled := Rejected (ApiError (status r) (statusText r) r body);
            fetches := S k; delays := waited |}.
Proof.
  intros Hf Hb Hok H404 H429. cbn [loop]. rewrite Hf, Hb, Hok.
  destruct (Z.eqb_spec (status r) 404) as [E|_];
    [rewrite (H404 E)|]; cbn [andb];
    now destruct (Z.eqb_spec (status r) 429).
Qed.

Lemma loop_not_found fuel k b waited r body :
  fetch (url request) (init request) k = Responds r ->
  json r = inr body ->
  status r = 404 ->
  nullable request = true ->
  loop ToNumber fetch request (S fuel) k b waited
  = Some {| settled := Resolved JNull; fetches := S k; delays := waited |}.
Proof.
  intros Hf Hb Hs Hn. cbn [loop]. rewrite Hf, Hb. unfold ok.
  now rewrite Hs, Hn.
Qed.

Lemma loop_exhausted fuel k b waited r body :
  fetch (url request) (init request) k = Responds r ->
  json r = inr body ->
  status r = 429 ->
  (Z.to_nat (budget request) <= k)%nat ->
  loop ToNumber fetch request (S fuel) k b waited
  = Some {| settled := Rejected (MaxRetriesExceededError
                                   (status r) (statusText r) r body);
            fetches := S k;
            delays := (waited ++ [fst (retryAfter ToNumber r b)])%list |}.
Proof.
  intros Hf Hb Hs Hk. cbn [loop]. rewrite Hf, Hb. unfold ok. rewrite Hs.
  cbn [Z.leb Z.eqb Z.compare Pos.compare Pos.compare_cont andb Pos.eqb].
  destruct (retryAfter ToNumber r b) as [d b'].
  replace (Z.of_nat (S k) <=? budget request)%Z with false
    by (symmetry; apply Z.leb_gt; lia).
  rewrite <- Hs. reflexivity.
Qed.

Lemma execute_from rs :
  (List.length rs <= Z.to_nat (budget request))%nat ->
  throttled 0 rs ->
  execute ToNumber fetch request
  = loop ToNumber fetch request
         (S (Z.to_nat (budget request) - List.length rs)) (List.length rs)
         (snd (waits rs (drawn 0))) (fst (waits rs (drawn 0))).
Proof.
  intros Hle Hrs. unfold execute.
  replace (S (Z.to_nat (budget request)))
    with (List.length rs + S (Z.to_nat (budget request) - List.length rs))%nat by lia.
  now rewrite loop_throttled.
Qed.

(** The loop ends: the fuel [execute] gives it is enough. *)
Lemma loop_total fuel : forall retries b waited,
  (0 < fuel)%nat ->
  (Z.to_nat (budget request) < retries + fuel)%nat ->
  exists run, loop ToNumber fetch request fuel retries b waited = Some run.
Proof.
  induction fuel as [|fuel IH]; intros retries b waited Hpos Hle; [lia|].
  cbn [loop].
  destruct (fetch (url request) (init request) retries) as [r|e];
    [|eexists; reflexivity].
  destruct (json r) as [e|body]; [eexists; reflexivity|].
  destruct (ok r); [eexists; reflexivity|].
  destruct ((status r =? 404)%Z && nullable request);
    [eexists; reflexivity|].
  destruct (status r =? 429)%Z; [|eexists; reflexivity].
  destruct (retryAfter ToNumber r b) as [d b'].
  destruct (Z.leb_spec (Z.of_nat (S retries)) (budget request));
    [|eexists; reflexivity].
  apply IH; lia.
Qed.

Lemma execute_total :
  exists run, execute ToNumber fetch request = Some run.
Proof. apply loop_total; lia. Qed.

End Run.

End LoopFacts.

Import Fetch Errors Backo2 LoopFacts.

(** Responses and transports of the examples. *)
Definition busy (retry_after : list (string * string)) : Response :=
  {| status := 429; statusText := "Too Many Requests";
     headers := retry_after; json := inr (JObject []) |}.

Definition broken : Response :=
  {| status := 500; statusText := "Internal Server Error";
     headers := []; json := inr (JObject []) |}.

Definition not_found : Response :=
  {| status := 404; statusText := "Not Found";
     headers := []; json := inr (JObject []) |}.

Definition plain_request (retries : Z) : Request :=
  {| url := "https://localhost:8000//book/1?";
     init := {| signal := None; request_headers := [] |};
     budget := retries; nullable := false |}.

(** C1: only a 429 is retried.  After any number of 429 responses within
    the budget, a response that is not a success (and not a 404 under
    [nullOn404]) and whose status is not 429 rejects at once with an
    [ApiError] of its status, status text and body, and [fetch] is not
    called again; and when that response is a 429 too and the budget is
    used up, the rejection is a [MaxRetriesExceededError] of this last
    response, which is an [ApiError] of its own class and not a plain one.
    The bodies are taken to parse, as the specification assumes of the
    transport. *)
Theorem C1_only_429_is_retried
        (ToNumber : string -> number) (fetch : Transport) (request : Request)
        (rs : list Response) (r : Response) (body : Json) :
  (List.length rs <= Z.to_nat (budget request))%nat ->
  throttled fetch request 0 rs ->
  fetch (url request) (init request) (List.length rs) = Responds r ->
  json r = inr body ->
  ok r = false ->
  (status r = 404 -> nullable request = false) ->
  (status r <> 429 ->
   execute ToNumber fetch request
   = Some {| settled := Rejected (ApiError (status r) (statusText r) r body);
             fetches := S (List.length rs);
             delays := fst (waits ToNumber rs (drawn 0)) |})
  /\ (status r = 429 ->
      List.length rs = Z.to_nat (budget request) ->
      execute ToNumber fetch request
      = Some {| settled := Rejected (MaxRetriesExceededError
                                       (status r) (statusText r) r body);
                fetches := S (List.length rs);
                delays := (fst (waits ToNumber rs (drawn 0))
                           ++ [fst (retryAfter ToNumber r
                                      (snd (waits ToNumber rs (drawn 0))))])%list |})
  /\ instanceof_MaxRetriesExceededError
       (ApiError (status r) (statusText r) r body) = false
  /\ instanceof_MaxRetriesExceededError
       (MaxRetriesExceededError (status r) (statusText r) r body) = true
  /\ instanceof_ApiError
       (MaxRetriesExceededError (status r) (statusText r) r body) = true.
Proof.
  intros Hle Hrs Hf Hb Hok H404.
  rewrite (execute_from ToNumber fetch request rs Hle Hrs).
  split; [|split; [|now repeat split]].
  - intros H429. now apply loop_api_error.
  - intros H429 Hlen. apply loop_exhausted; trivial. lia.
Qed.

(** C1 on two runs with a budget of 2: 429, 429, 500 rejects with the
    [ApiError] of the 500 after three calls, and 429, 429, 429 rejects with
    the [MaxRetriesExceededError] of the third 429. *)
Lemma C1_only_429_is_retried_witness :
  execute ToNumber_decimal
          (fun _ _ n => match n with
                        | 0%nat | 1%nat => Responds (busy [("Retry-After", "1")])
                        | _ => Responds broken
                        end)
          (plain_request 2)
  = Some {| settled := Rejected (ApiError 500 "Internal Server Error"
                                          broken (JObject []));
            fetches := 3;
            delays := [of_int 1; of_int 1] |}
  /\ execute ToNumber_decimal (fun _ _ _ => Responds (busy [])) (plain_request 2)
     = Some {| settled := Rejected (MaxRetriesExceededError
                                      429 "Too Many Requests" (busy [])
                                      (JObject []));
               fetches := 3;
               delays := [of_int 100; of_int 200; of_int 400] |}.
Proof.
  split.
  - apply (C1_only_429_is_retried ToNumber_decimal _ (plain_request 2)
             [busy [("Retry-After", "1")]; busy [("Retry-After", "1")]]
             broken (JObject [])); try reflexivity; try discriminate.
    intros [|[|[|i]]] r Hr; try discriminate; injection Hr as <-;
      (split; [reflexivity | split; [reflexivity | now eexists]]).
  - apply (C1_only_429_is_retried ToNumber_decimal _ (plain_request 2)
             [busy []; busy []] (busy []) (JObject []));
      try reflexivity; try discriminate.
    intros [|[|[|i]]] r Hr; try discriminate; injection Hr as <-;
      (split; [reflexivity | split; [reflexivity | now eexists]]).
Defined.

Definition fine : Response :=
  {| status := 200; statusText := "OK";
     headers := []; json := inr (JObject []) |}.

(** The delays that a run of 429 responses makes the loop wait, response
    by response: a [Retry-After] header that is there and not empty gives
    the delay by itself, and the backoff is not advanced; without one the
    delay is the next duration of the backoff, the smaller of [100 * 2^j]
    and 20000 when [j] durations were taken before. *)
Fixpoint schedule (ToNumber : string -> number) (rs : list Response) (j : nat)
  : list number :=
  match rs with
  | [] => []
  | r :: rest =>
      match Headers_get (headers r) "Retry-After" with
      | Some (String c h) => ToNumber (String c h) :: schedule ToNumber rest j
      | _ => of_int (Z.min (100 * 2 ^ Z.of_nat j) 20000)
             :: schedule ToNumber rest (S j)
      end
  end.

(** A header value read as seconds, as a delay of the timer, which counts
    in milliseconds like the durations of the backoff. *)
Definition seconds (v : number) : number :=
  match v with
  | Finite q => Finite (Qmult q (inject_Z 1000))
  | _ => v
  end.

Lemma waits_schedule ToNumber rs : forall j,
  exists j', waits ToNumber rs (drawn j) = (schedule ToNumber rs j, drawn j').
Proof.
  induction rs as [|r rs IH]; intros j; [now exists j|].
  cbn [waits schedule]. unfold retryAfter.
  destruct (Headers_get (headers r) "Retry-After") as [[|c h]|];
    try rewrite duration_drawn;
    [destruct (IH (S j)) as [j' Hj] | destruct (IH j) as [j' Hj]
     | destruct (IH (S j)) as [j' Hj]];
    exists j'; now rewrite Hj.
Qed.

Lemma loop_delays_extend ToNumber fetch request fuel :
  forall retries b waited run,
    loop ToNumber fetch request fuel retries b waited = Some run ->
    exists later, delays run = (waited ++ later)%list.
Proof.
  induction fuel as [|fuel IH]; intros retries b waited run H; [discriminate|].
  cbn [loop] in H.
  destruct (fetch (url request) (init request) retries) as [r|e];
    [|injection H as <-; exists []; cbn; now rewrite app_nil_r].
  destruct (json r) as [e|body];
    [injection H as <-; exists []; cbn; now rewrite app_nil_r|].
  destruct (ok r); [injection H as <-; exists []; cbn; now rewrite app_nil_r|].
  destruct ((status r =? 404)%Z && nullable request);
    [injection H as <-; exists []; cbn; now rewrite app_nil_r|].
  destruct (status r =? 429)%Z;
    [|injection H as <-; exists []; cbn; now rewrite app_nil_r].
  destruct (retryAfter ToNumber r b) as [d b'].
  destruct (Z.of_nat (S retries) <=? budget request)%Z.
  - apply IH in H as [later H]. exists (d :: later).
    now rewrite H, <- app_assoc.
  - injection H as <-. now exists [d].
Qed.

(** C4, as amended: for every 429 response of a run within the budget,
    the delay before the next attempt is chosen as follows: when a
    [Retry-After] header is there and not empty, the delay is taken from
    the number its text converts to, and the backoff is neither consulted
    nor advanced; when the header is absent or empty, the delay is the next
    duration of the backoff made with a minimum of 100 and a maximum of
    20000, which lies between these two.  The delays of the run start with
    those of its 429 responses, in order. *)
Theorem C4_delay_before_the_next_attempt (ToNumber : string -> number) :
  (forall j, 100 <= Z.min (100 * 2 ^ Z.of_nat j) 20000 <= 20000)
  /\ (forall (fetch : Transport) (request : Request) (rs : list Response),
         (List.length rs <= Z.to_nat (budget request))%nat ->
         throttled fetch request 0 rs ->
         exists run later,
           execute ToNumber fetch request = Some run
           /\ delays run = (schedule ToNumber rs 0 ++ later)%list
           /\ List.length (schedule ToNumber rs 0) = List.length rs).
Proof.
  split; [apply duration_bounds|].
  intros fetch request rs Hle Hrs.
  destruct (execute_total ToNumber fetch request) as [run Hrun].
  pose proof Hrun as Hloop.
  rewrite (execute_from ToNumber fetch request rs Hle Hrs) in Hloop.
  apply loop_delays_extend in Hloop as [later Hlater].
  destruct (waits_schedule ToNumber rs 0) as [j' Hw].
  rewrite Hw in Hlater. cbn [fst] in Hlater.
  exists run, later. repeat split; trivial.
  assert (Hl : forall l j, List.length (schedule ToNumber l j) = List.length l).
  { induction l as [|r l IH]; intros j; [reflexivity|]. cbn [schedule].
    destruct (Headers_get (headers r) "Retry-After") as [[|c h]|];
      cbn [List.length]; now rewrite IH. }
  apply Hl.
Qed.

(** C4 on a run of four 429 responses and a 200: a header of 120, no
    header, an HTTP date, no header.  The two responses with a header leave
    the backoff where it was, so the delays without a header are 100 and
    200. *)
Lemma C4_delay_before_the_next_attempt_witness :
  exists run later,
    execute ToNumber_decimal
            (fun _ _ n =>
               match n with
               | 0%nat => Responds (busy [("Retry-After", "120")])
               | 1%nat => Responds (busy [])
               | 2%nat => Responds (busy [("Retry-After",
                                          "Wed, 21 Oct 2015 07:28:00 GMT")])
               | 3%nat => Responds (busy [])
               | _ => Responds fine
               end)
            (plain_request 10)
    = Some run
    /\ delays run = ([of_int 120; of_int 100; NaN; of_int 200] ++ later)%list.
Proof.
  refine (_ (proj2 (C4_delay_before_the_next_attempt ToNumber_decimal)
           (fun _ _ n =>
              match n with
              | 0%nat => Responds (busy [("Retry-After", "120")])
              | 1%nat => Responds (busy [])
              | 2%nat => Responds (busy [("Retry-After",
                                         "Wed, 21 Oct 2015 07:28:00 GMT")])
              | 3%nat => Responds (busy [])
              | _ => Responds fine
              end)
           (plain_request 10)
           [busy [("Retry-After", "120")]; busy [];
            busy [("Retry-After", "Wed, 21 Oct 2015 07:28:00 GMT")];
            busy []] _ _)).
  - intros (run & later & Hrun & Hdelays & _). now exists run, later.
  - vm_compute. lia.
  - intros [|[|[|[|[|i]]]]] r Hr; try discriminate; injection Hr as <-;
      (split; [reflexivity | split; [reflexivity | now eexists]]).
Defined.

(** C4 as stated fails in two places.  On a header that is there and not
    numeric, such as an HTTP date, the delay is [NaN], not the next backoff
    duration (100 on a fresh backoff), and the backoff is left as it was.
    And a numeric header is not read as seconds: with [Retry-After: 120]
    the timer is given 120, which it reads as milliseconds like the 100 of
    the backoff, not the 120000 that 120 seconds are. *)
Lemma C4_header_neither_numeric_nor_seconds :
  let dated := busy [("Retry-After", "Wed, 21 Oct 2015 07:28:00 GMT")] in
  let timed := busy [("Retry-After", "120")] in
  retryAfter ToNumber_decimal dated (drawn 0) = (NaN, drawn 0)
  /\ fst (duration (drawn 0)) = 100
  /\ fst (retryAfter ToNumber_decimal dated (drawn 0))
     <> of_int (fst (duration (drawn 0)))
  /\ execute ToNumber_decimal
             (fun _ _ n => match n with
                           | O => Responds dated
                           | S _ => Responds fine
                           end)
             (plain_request 10)
     = Some {| settled := Resolved (JObject []); fetches := 2;
               delays := [NaN] |}
  /\ execute ToNumber_decimal
             (fun _ _ n => match n with
                           | O => Responds timed
                           | S _ => Responds fine
                           end)
             (plain_request 10)
     = Some {| settled := Resolved (JObject []); fetches := 2;
               delays := [of_int 120] |}
  /\ seconds (ToNumber_decimal "120") = of_int 120000
  /\ of_int 120 <> seconds (ToNumber_decimal "120").
Proof.
  repeat (split; [reflexivity || discriminate|]). discriminate.
Qed.

Lemma createInterface_nullable endpoint definition apiOptions first second :
  nullable (promise (createInterface endpoint definition apiOptions
                                     first second))
  = match apiNullOn404 apiOptions with
    | Some b => b
    | None => false
    end.
Proof. destruct definition, first; reflexivity. Qed.

(** C6: when a request gets a 404 (after any number of 429 responses within
    the budget) and [nullOn404] is on, the handle resolves with [null]; with
    [nullOn404] off or not given, the same response rejects with an
    [ApiError].  The body is taken to parse, as the specification assumes of
    the transport. *)
Theorem C6_null_on_404
        (ToNumber : string -> number) (fetch : Transport)
        endpoint definition apiOptions first second
        (rs : list Response) (r : Response) (body : Json) :
  let h := createInterface endpoint definition apiOptions first second in
  (List.length rs <= Z.to_nat (budget (promise h)))%nat ->
  throttled fetch (promise h) 0 rs ->
  fetch (url (promise h)) (init (promise h)) (List.length rs) = Responds r ->
  status r = 404 ->
  json r = inr body ->
  await_over ToNumber fetch h
  = Some {| settled :=
              match apiNullOn404 apiOptions with
              | Some true => Resolved JNull
              | _ => Rejected (ApiError 404 (statusText r) r body)
              end;
            fetches := S (List.length rs);
            delays := fst (waits ToNumber rs (drawn 0)) |}.
Proof.
  intros h Hle Hrs Hf Hs Hb. unfold await_over.
  rewrite (execute_from ToNumber fetch (promise h) rs Hle Hrs).
  pose proof (createInterface_nullable endpoint definition apiOptions
                                       first second) as Hn.
  fold h in Hn.
  destruct (apiNullOn404 apiOptions) as [[|]|].
  - now apply loop_not_found with (r := r) (body := body).
  - rewrite <- Hs. apply loop_api_error; trivial.
    + unfold ok. now rewrite Hs.
    + rewrite Hs. discriminate.
  - rewrite <- Hs. apply loop_api_error; trivial.
    + unfold ok. now rewrite Hs.
    + rewrite Hs. discriminate.
Qed.

(** C6 on [book(7)] with [nullOn404: true], a 429 and then a 404. *)
Lemma C6_null_on_404_witness :
  await_over ToNumber_decimal
             (fun _ _ n => match n with
                           | O => Responds (busy [("Retry-After", "1")])
                           | S _ => Responds not_found
                           end)
             (createInterface "/book"
                (mkResourceDefinition "Book" None None None None OneUndefined)
                {| apiNullOn404 := Some true; apiMaxRetries := None;
                   apiAuthenticationToken := None |}
                (IdArgument (VNumber 7)) None)
  = Some {| settled := Resolved JNull; fetches := 2; delays := [of_int 1] |}.
Proof.
  apply (C6_null_on_404 ToNumber_decimal
           (fun _ _ n => match n with
                         | O => Responds (busy [("Retry-After", "1")])
                         | S _ => Responds not_found
                         end)
           "/book"
           (mkResourceDefinition "Book" None None None None OneUndefined)
           {| apiNullOn404 := Some true; apiMaxRetries := None;
              apiAuthenticationToken := None |}
           (IdArgument (VNumber 7)) None
           [busy [("Retry-After", "1")]] not_found (JObject []));
    try reflexivity.
  - vm_compute. lia.
  - intros [|[|i]] r Hr; try discriminate; injection Hr as <-;
      (split; [reflexivity | split; [reflexivity | now eexists]]).
Defined.

(** C10, as the code runs: [testFetch] answers every call with a response
    of status 200 whose body is the URL, but the URL is not JSON, so
    [response.json()] throws, the [catch] clause classifies the
    [SyntaxError] as unknown, and every handle rejects with an
    [UnknownError] after one call; no handle resolves with the URL. *)
Theorem C10_every_handle_rejects
        (ToNumber : string -> number) (JSON_parse : string -> option Json)
        endpoint definition apiOptions first second :
  let h := createInterface endpoint definition apiOptions first second in
  (forall i n, exists r,
        testFetch JSON_parse (url (promise h)) i n = Responds r
        /\ status r = 200 /\ ok r = true
        /\ json r = inl (SyntaxError "Unexpected token"))
  /\ await ToNumber JSON_parse h
     = Some {| settled := Rejected (UnknownError "{}"); fetches := 1;
               delays := [] |}.
Proof.
  destruct definition, first; split;
    try (intros i n; eexists; repeat split); reflexivity.
Qed.

(** * Further properties *)

(** ** The filter encoder: fields, values and the characters written *)

Module EncoderFacts.
Import JS Filtering StringFacts FilterFacts.

(** What is before the first [c]. *)
Fixpoint before_first (c : ascii) (s : string) : string :=
  match s with
  | EmptyString => ""
  | String d rest =>
      if Ascii.eqb d c then "" else String d (before_first c rest)
  end.

(** The characters of an encoded filter string and of a query string:
    what [encodeURIComponent] writes, and the operators and separators. *)
Definition query_char (c : ascii) : bool :=
  written c || existsb (Ascii.eqb c) (list_ascii_of_string "&=!<>,").

(** A filter whose strings all pass through [encode]: any filter but an
    object with [$ne] or [$nin]. *)
Definition encodable (f : Filter) : bool :=
  match f with
  | Obj o =>
      match dollar_ne o, dollar_nin o with
      | None, None => true
      | _, _ => false
      end
  | _ => true
  end.

(** The numbers [Number_toString] is exact on: the safe integers. *)
Definition safe_integer (n : Z) : bool := (Z.abs n <=? 9007199254740991)%Z.

Definition safe_primitive (p : Primitive) : bool :=
  match p with
  | PNumber n => safe_integer n
  | _ => true
  end.

Definition safe_bound (bound : option Z) : bool :=
  match bound with
  | Some n => safe_integer n
  | None => true
  end.

(** Every number of the filter is a safe integer. *)
Definition safe_numbers (f : Filter) : bool :=
  match f with
  | Is (IsPrimitive p) => safe_primitive p
  | Is (IsRegExp _) => true
  | Exist _ => true
  | Include l => forallb safe_primitive l
  | Obj o =>
      match dollar_ne o with
      | Some (IsPrimitive p) => safe_primitive p
      | _ => true
      end
      && match dollar_nin o with
         | Some l => forallb safe_primitive l
         | None => true
         end
      && safe_bound (dollar_gt o) && safe_bound (dollar_lt o)
      && safe_bound (dollar_gte o) && safe_bound (dollar_lte o)
  end.

(** A filter whose strings all pass through [encode] and whose numbers are
    safe integers. *)
Definition well_encoded (f : Filter) : bool := encodable f && safe_numbers f.

(** A key that is not made of digits only (and is not empty): such keys
    are enumerated in the order in which they were put into the object. *)
Definition is_digit (c : ascii) : bool :=
  let n := N_of_ascii c in ((48 <=? n) && (n <=? 57))%N.

Definition named (key : string) : bool := negb (all_chars is_digit key).

(** The entries of [f] followed by those of [g] are the enumeration of the
    object [{ ...f, ...g }]: no key is there twice and every key is
    [named]. *)
Definition merges (f g : list (string * Filter)) : Prop :=
  NoDup (map fst (f ++ g))
  /\ Forall (fun e => named (fst e) = true) (f ++ g).

Lemma well_encoded_encodable (filters : list (string * Filter)) :
  Forall (fun e => well_encoded (snd e) = true) filters ->
  Forall (fun e => encodable (snd e) = true) filters.
Proof.
  apply Forall_impl. intros e H. unfold well_encoded in H.
  now apply andb_true_iff in H as [H _].
Qed.

Lemma before_first_app c s t :
  all_chars (other_than c) s = true ->
  before_first c (s ++ String c t) = s.
Proof.
  induction s as [|d s IH]; simpl.
  - intros _. now rewrite Ascii.eqb_refl.
  - intros H. apply andb_true_iff in H as [Hd Hs].
    unfold other_than in Hd. apply negb_true_iff in Hd.
    now rewrite Hd, (IH Hs).
Qed.

Lemma append_cancel (s t u : string) : s ++ t = s ++ u -> t = u.
Proof.
  induction s as [|c s IH]; simpl; [trivial|].
  intros [= H]. now apply IH.
Qed.

Lemma join_app sep l1 l2 :
  l1 <> [] -> l2 <> [] ->
  join sep (l1 ++ l2) = join sep l1 ++ sep ++ join sep l2.
Proof.
  induction l1 as [|x l1 IH]; [congruence|]. intros _ H2.
  destruct l1 as [|y l1].
  - destruct l2; [congruence | reflexivity].
  - change (join sep ((x :: y :: l1) ++ l2))
      with (x ++ sep ++ join sep ((y :: l1) ++ l2)).
    rewrite IH by (discriminate || assumption).
    change (join sep (x :: y :: l1)) with (x ++ sep ++ join sep (y :: l1)).
    now rewrite !append_assoc.
Qed.

Lemma all_chars_join p sep l :
  all_chars p sep = true ->
  Forall (fun x => all_chars p x = true) l ->
  all_chars p (join sep l) = true.
Proof.
  intros Hsep. induction 1 as [|x l Hx Hl IH]; [reflexivity|].
  destruct l as [|y l]; [exact Hx|].
  change (join sep (x :: y :: l)) with (x ++ sep ++ join sep (y :: l)).
  now rewrite !all_chars_app, Hx, Hsep, IH.
Qed.

Lemma written_query_char s :
  all_chars written s = true -> all_chars query_char s = true.
Proof.
  apply all_chars_weaken. intros c Hc. unfold query_char. now rewrite Hc.
Qed.

Lemma encoded_query_char s : all_chars query_char (encodeURIComponent s) = true.
Proof. apply written_query_char, encodeURIComponent_written. Qed.

Lemma number_query_char n : all_chars query_char (Number_toString n) = true.
Proof.
  apply written_query_char.
  apply (all_chars_weaken uriUnescaped), Number_toString_unescaped.
  apply unescaped_written.
Qed.

Lemma element_query_char p :
  all_chars query_char (join_element (encode_element p)) = true.
Proof.
  destruct p; simpl;
    [apply encoded_query_char | apply number_query_char | reflexivity].
Qed.

Lemma push_bound_query_char k op bound :
  all_chars query_char k = true ->
  all_chars query_char op = true ->
  Forall (fun x => all_chars query_char x = true) (push_bound k op bound).
Proof.
  intros Hk Hop. destruct bound; constructor; [|constructor].
  now rewrite !all_chars_app, Hk, Hop, number_query_char.
Qed.

Lemma fragments_query_char key v :
  encodable v = true ->
  Forall (fun x => all_chars query_char x = true)
         (fragments (encodeURIComponent key) (encode v)).
Proof.
  pose proof (encoded_query_char key) as Hk.
  destruct v as [[[s|n|]|r]|b|l|o]; cbn [encode canEncode fragments
    Filter_toString IsFilter_toString Primitive_toString]; intros He.
  - constructor; [|constructor].
    now rewrite !all_chars_app, Hk, encoded_query_char.
  - constructor; [|constructor].
    now rewrite !all_chars_app, Hk, number_query_char.
  - constructor; [|constructor]. now rewrite !all_chars_app, Hk.
  - constructor; [|constructor].
    now rewrite !all_chars_app, Hk, encoded_query_char.
  - constructor; [|constructor]. rewrite all_chars_app, Hk. now destruct b.
  - constructor; [|constructor]. rewrite !all_chars_app, Hk.
    cbn [all_chars andb]. unfold Array_join. rewrite map_map.
    replace (query_char "=") with true by reflexivity.
    rewrite all_chars_join; [reflexivity | reflexivity |].
    apply Forall_forall. intros x Hx.
    apply in_map_iff in Hx as (p & <- & _). apply element_query_char.
  - cbn [encodable] in He.
    destruct (dollar_ne o); [discriminate|].
    destruct (dollar_nin o); [discriminate|].
    repeat (apply Forall_app; split);
      now apply push_bound_query_char.
Qed.

Lemma all_fragments_query_char filters :
  Forall (fun e => encodable (snd e) = true) filters ->
  Forall (fun x => all_chars query_char x = true) (all_fragments filters).
Proof.
  unfold all_fragments, mapValues, mapKeys.
  induction 1 as [|[key v] rest Hv Hrest IH]; [constructor|].
  cbn [map flat_map fst snd]. apply Forall_app. split; [|exact IH].
  now apply fragments_query_char.
Qed.

Lemma existence_fragments (l : list (string * bool)) :
  all_fragments (map (fun e => (fst e, Exist (snd e))) l)
  = map (fun e : string * bool =>
           (if snd e then "" else "!") ++ encodeURIComponent (fst e)) l.
Proof.
  unfold all_fragments, mapValues, mapKeys.
  induction l as [|[key b] l IH]; [reflexivity|].
  cbn [map flat_map fst snd encode canEncode fragments app].
  f_equal. exact IH.
Qed.

End EncoderFacts.

Import EncoderFacts.

(** X1: a map of existence filters gives, field by field and in the order
    of the map, the encoded field for [true] and [!] with the encoded field
    for [false], joined with [&]. *)
Theorem X1_existence_filters (l : list (string * bool)) :
  stringifyFilters (map (fun e => (fst e, Exist (snd e))) l)
  = join "&"
      (map (fun e : string * bool =>
              (if snd e then "" else "!") ++ encodeURIComponent (fst e)) l).
Proof.
  change (stringifyFilters ?f) with (join "&" (all_fragments f)).
  now rewrite existence_fragments.
Qed.

(** X2: an equality filter is written [field=value] with both sides
    percent-encoded once, so that cutting the fragment at its first [=] and
    decoding gives back the field name and the text of the value: a string
    as it is, a pattern as [/source/flags], a number in decimal, [null] as
    [null]. *)
Theorem X2_equality_filter_roundtrip (key : string) (v : IsFilter) :
  let fragment := stringifyFilters [(key, Is v)] in
  decodeURIComponent (before_first "=" fragment) = Some key
  /\ decodeURIComponent (after_first "=" fragment)
     = Some (IsFilter_toString v).
Proof.
  assert (Hk : all_chars (other_than "=") (encodeURIComponent key) = true)
    by now apply encoded_free_of.
  assert (Hf : exists value,
             stringifyFilters [(key, Is v)]
             = encodeURIComponent key ++ String "=" value
             /\ decodeURIComponent value = Some (IsFilter_toString v)).
  { destruct v as [[s|n|]|r].
    - eexists. split; [reflexivity | apply decode_encode].
    - eexists. split; [reflexivity |].
      apply decode_unescaped, Number_toString_unescaped.
    - eexists. split; reflexivity.
    - eexists. split; [reflexivity | apply decode_encode]. }
  destruct Hf as (value & -> & Hv). cbv zeta.
  rewrite before_first_app, after_first_app by exact Hk.
  split; [apply decode_encode | exact Hv].
Qed.

(** X3: encoding goes field by field.  For two filter maps with no key in
    common and no key made of digits only, so that the entries of the merged
    object [{ ...f, ...g }] are those of [f] followed by those of [g], the
    string of the merged map is the two strings joined with [&], and a map
    that gives no fragment adds nothing, not even a separator. *)
Theorem X3_filter_maps_compose (f g : list (string * Filter)) :
  merges f g ->
  stringifyFilters (f ++ g) =
  match all_fragments f, all_fragments g with
  | [], _ => stringifyFilters g
  | _ :: _, [] => stringifyFilters f
  | _ :: _, _ :: _ => stringifyFilters f ++ "&" ++ stringifyFilters g
  end.
Proof.
  intros _.
  change (stringifyFilters ?x) with (join "&" (all_fragments x)).
  rewrite all_fragments_app.
  destruct (all_fragments f) as [|a fa]; [reflexivity|].
  destruct (all_fragments g) as [|b gb]; [now rewrite app_nil_r|].
  apply join_app; discriminate.
Qed.

(** X3 on [{ name: 'a b', seen: true }] and [{ words: { $gt: 20 } }]. *)
Lemma X3_filter_maps_compose_witness :
  stringifyFilters
    ([("name", Is (IsPrimitive (PString "a b"))); ("seen", Exist true)]
     ++ [("words", ComparisonFilter (Some 20) None None None)])
  = "name=a%20b&seen" ++ "&" ++ "words>20".
Proof.
  apply (X3_filter_maps_compose
           [("name", Is (IsPrimitive (PString "a b"))); ("seen", Exist true)]
           [("words", ComparisonFilter (Some 20) None None None)]).
  split.
  - repeat constructor; cbn; intuition discriminate.
  - repeat constructor.
Defined.

(** X4: when no filter of the map is an object with [$ne] or [$nin], and
    the numbers in it are safe integers, the encoded string has only the
    characters [encodeURIComponent] writes and the operators and separators
    [& = ! < > ,]: no field name or value can bring in a space, a [#] or a
    [?]. *)
Theorem X4_encoded_filters_are_query_safe (filters : list (string * Filter)) :
  Forall (fun e => well_encoded (snd e) = true) filters ->
  all_chars query_char (stringifyFilters filters) = true.
Proof.
  intros H. apply well_encoded_encodable in H.
  change (stringifyFilters filters)
    with (join "&" (all_fragments filters)).
  apply all_chars_join; [reflexivity|].
  now apply all_fragments_query_char.
Qed.

(** X4 on a map with a string, a pattern, a list and a comparison. *)
Lemma X4_encoded_filters_are_query_safe_witness :
  all_chars query_char
    (stringifyFilters
       [("na me", Is (IsPrimitive (PString "a&b=c#d")));
        ("p", Is (IsRegExp {| source := "a b"; flags := "i" |}));
        ("l", Include [PString "x,y"; PNumber 3; PNull]);
        ("w", ComparisonFilter (Some 1) None None (Some 9))])
  = true.
Proof.
  apply X4_encoded_filters_are_query_safe.
  repeat constructor.
Defined.

(** X5: an inclusion list keeps a comma inside a value apart from the comma
    between values, while an exclusion list, whose values are written as
    they are, does not: [$nin] of the one value [a,b] and of the two values
    [a] and [b] give the same fragment. *)
Theorem X5_comma_in_list_values (key a b : string) :
  stringifyFilters [(key, Include [PString (a ++ "," ++ b)])]
  <> stringifyFilters [(key, Include [PString a; PString b])]
  /\ stringifyFilters [(key, ExcludeFilter [PString (a ++ "," ++ b)])]
     = stringifyFilters [(key, ExcludeFilter [PString a; PString b])].
Proof.
  split; [|reflexivity].
  change (stringifyFilters [(key, Include [PString (a ++ "," ++ b)])])
    with (encodeURIComponent key ++ "="
          ++ encodeURIComponent (a ++ "," ++ b)).
  change (stringifyFilters [(key, Include [PString a; PString b])])
    with (encodeURIComponent key ++ "="
          ++ encodeURIComponent a ++ "," ++ encodeURIComponent b).
  intros H. apply append_cancel, append_cancel in H.
  assert (Hl : all_chars (other_than ",")
                 (encodeURIComponent (a ++ "," ++ b)) = true)
    by now apply encoded_free_of.
  rewrite H, all_chars_app in Hl.
  apply andb_true_iff in Hl as [_ Hl]. discriminate.
Qed.

(** ** The request loop: success, failures and bounds *)

Module RunFacts.
Import JS Fetch Errors Backo2 Api LoopFacts.

(** The three cases of the [catch] clause. *)
Lemma classify_cases e :
  (isTypeError e = true -> classify e = NetworkError (message e))
  /\ (isTypeError e = false -> isError e = true -> name e = "AbortError" ->
      classify e = AbortError (message e))
  /\ (isTypeError e = false ->
      (isError e = false \/ name e <> "AbortError") ->
      classify e = UnknownError (stringified e)).
Proof.
  unfold classify. repeat split.
  - now intros ->.
  - now intros -> -> ->.
  - intros -> [->|Hn]; [reflexivity|].
    destruct (String.eqb_spec (name e) "AbortError"); [contradiction|].
    now rewrite andb_false_r.
Qed.

Lemma classify_is_no_ApiError e : instanceof_ApiError (classify e) = false.
Proof.
  unfold classify.
  destruct (isTypeError e), (isError e && (name e =? "AbortError")%string);
    reflexivity.
Qed.

Section Run.

Variable ToNumber : string -> number.
Variable fetch : Transport.
Variable request : Request.

Lemma waits_length rs : forall b,
  List.length (fst (waits ToNumber rs b)) = List.length rs.
Proof.
  induction rs as [|r rs IH]; intros b; [reflexivity|].
  cbn [waits]. destruct (retryAfter ToNumber r b) as [d b'].
  specialize (IH b'). destruct (waits ToNumber rs b') as [ds b''].
  cbn [fst List.length] in *. now rewrite IH.
Qed.

Lemma loop_success fuel k b waited r body :
  fetch (url request) (init request) k = Responds r ->
  json r = inr body ->
  ok r = true ->
  loop ToNumber fetch request (S fuel) k b waited
  = Some {| settled := Resolved body; fetches := S k; delays := waited |}.
Proof. intros Hf Hb Hok. cbn [loop]. now rewrite Hf, Hb, Hok. Qed.

Lemma loop_throws fuel k b waited e :
  fetch (url request) (init request) k = Throws e ->
  loop ToNumber fetch request (S fuel) k b waited
  = Some {| settled := Rejected (classify e); fetches := S k;
            delays := waited |}.
Proof. intros Hf. cbn [loop]. now rewrite Hf. Qed.

Lemma loop_unparsed fuel k b waited r e :
  fetch (url request) (init request) k = Responds r ->
  json r = inl e ->
  loop ToNumber fetch request (S fuel) k b waited
  = Some {| settled := Rejected (classify e); fetches := S k;
            delays := waited |}.
Proof. intros Hf Hb. cbn [loop]. now rewrite Hf, Hb. Qed.

(** What holds of the run of a loop entered at [retries] with the delays
    [waited] behind it. *)
Definition ends_within (retries : nat) (waited : list number) (run : Run)
  : Prop :=
  (S retries <= fetches run)%nat
  /\ (fetches run <= Nat.max (S retries) (S (Z.to_nat (budget request))))%nat
  /\ match settled run with
     | Rejected (MaxRetriesExceededError s _ r _) =>
         s = 429 /\ status r = 429
         /\ (Z.to_nat (budget request) < fetches run)%nat
         /\ List.length (delays run)
            = (List.length waited + (fetches run - retries))%nat
     | _ =>
         List.length (delays run)
         = (List.length waited + (fetches run - S retries))%nat
     end.

Lemma settle_ends_within retries waited s :
  instanceof_MaxRetriesExceededError
    (match s with Rejected e => e | Resolved _ => UnknownError "" end) = false ->
  ends_within retries waited
    {| settled := s; fetches := S retries; delays := waited |}.
Proof.
  intros Hs. unfold ends_within. cbn [fetches settled delays].
  repeat split; try lia.
  destruct s as [v|[]]; try discriminate; lia.
Qed.

Lemma loop_ends_within fuel : forall retries b waited run,
  loop ToNumber fetch request fuel retries b waited = Some run ->
  ends_within retries waited run.
Proof.
  induction fuel as [|fuel IH]; intros retries b waited run H; [discriminate|].
  cbn [loop] in H.
  destruct (fetch (url request) (init request) retries) as [r|e].
  2:{ injection H as <-. apply settle_ends_within.
      pose proof (classify_is_no_ApiError e). now destruct (classify e). }
  destruct (json r) as [e|body].
  { injection H as <-. apply settle_ends_within.
    pose proof (classify_is_no_ApiError e). now destruct (classify e). }
  destruct (ok r); [injection H as <-; now apply settle_ends_within|].
  destruct ((status r =? 404)%Z && nullable request);
    [injection H as <-; now apply settle_ends_within|].
  destruct (Z.eqb_spec (status r) 429) as [Hs|_];
    [|injection H as <-; now apply settle_ends_within].
  destruct (retryAfter ToNumber r b) as [d b'].
  destruct (Z.leb_spec (Z.of_nat (S retries)) (budget request)) as [Hle|Hgt].
  - apply IH in H. destruct H as (H1 & H2 & H3).
    unfold ends_within. repeat split; try lia.
    rewrite length_app in H3. cbn [List.length] in H3.
    destruct (settled run) as [v|[]]; lia.
  - injection H as <-. unfold ends_within.
    cbn [fetches settled delays]. rewrite length_app. cbn [List.length].
    repeat split; trivial; lia.
Qed.

(** A transport that answers every call with a 429 whose body parses. *)
Definition always_throttled (responses : nat -> Response) : Prop :=
  forall i,
    fetch (url request) (init request) i = Responds (responses i)
    /\ status (responses i) = 429
    /\ exists body, json (responses i) = inr body.

Lemma always_throttled_prefix responses k : forall from,
  always_throttled responses ->
  throttled fetch request from (map responses (seq from k)).
Proof.
  induction k as [|k IH]; intros from H i r Hr.
  - now destruct i.
  - destruct i as [|i]; cbn [seq map nth_error] in Hr.
    + injection Hr as <-. rewrite Nat.add_0_r. apply H.
    + replace (from + S i)%nat with (S from + i)%nat by lia.
      now apply (IH (S from) H).
Qed.

Lemma always_throttled_run responses :
  always_throttled responses ->
  exists body run,
    json (responses (Z.to_nat (budget request))) = inr body
    /\ execute ToNumber fetch request = Some run
    /\ settled run
       = Rejected (MaxRetriesExceededError
                     429
                     (statusText (responses (Z.to_nat (budget request))))
                     (responses (Z.to_nat (budget request))) body)
    /\ fetches run = S (Z.to_nat (budget request))
    /\ List.length (delays run) = S (Z.to_nat (budget request)).
Proof.
  intros H. set (n := Z.to_nat (budget request)).
  destruct (H n) as (Hf & Hs & body & Hb).
  pose (rs := map responses (seq 0 n)).
  assert (Hlen : List.length rs = n)
    by (unfold rs; now rewrite length_map, length_seq).
  assert (Hrun : execute ToNumber fetch request
                 = Some {| settled := Rejected (MaxRetriesExceededError
                                                  (status (responses n))
                                                  (statusText (responses n))
                                                  (responses n) body);
                           fetches := S n;
                           delays := (fst (waits ToNumber rs (drawn 0))
                                      ++ [fst (retryAfter ToNumber (responses n)
                                                 (snd (waits ToNumber rs (drawn 0))))])%list |}).
  { rewrite (execute_from ToNumber fetch request rs);
      [|fold n; lia | now apply always_throttled_prefix].
    rewrite Hlen. now apply loop_exhausted. }
  exists body. eexists. split; [exact Hb|]. split; [exact Hrun|].
  cbn [settled fetches delays]. rewrite Hs, length_app, waits_length, Hlen.
  repeat split. cbn [List.length]. lia.
Qed.

End Run.

(** Without a usable [Retry-After] header the delays are the backoff
    durations one after the other. *)
Lemma waits_backoff ToNumber rs : forall j,
  Forall (fun r => Headers_get (headers r) "Retry-After" = None
                   \/ Headers_get (headers r) "Retry-After" = Some "") rs ->
  waits ToNumber rs (drawn j)
  = (map (fun i => of_int (Z.min (100 * 2 ^ Z.of_nat i) 20000))
         (seq j (List.length rs)),
     drawn (j + List.length rs)).
Proof.
  induction rs as [|r rs IH]; intros j H.
  - cbn. now rewrite Nat.add_0_r.
  - inversion H as [|? ? Hr Hrs]; subst.
    cbn [waits]. unfold retryAfter.
    assert (Hd : (match Headers_get (headers r) "Retry-After" with
                  | Some (String c rest) => (ToNumber (String c rest), drawn j)
                  | _ => let (d, b') := duration (drawn j) in (of_int d, b')
                  end)
                 = (of_int (Z.min (100 * 2 ^ Z.of_nat j) 20000), drawn (S j))).
    { destruct Hr as [-> | ->]; now rewrite duration_drawn. }
    rewrite Hd, (IH (S j) Hrs). cbn [List.length seq map].
    now rewrite Nat.add_succ_r.
Qed.

End RunFacts.

Import RunFacts.

(** X6: a success after throttling.  When the calls of [fetch] get 429
    responses within the budget and then a response of the 200 range whose
    body parses, the promise resolves with that body; [fetch] was called
    once more than there were 429 responses, and one delay was waited for
    each of them. *)
Theorem X6_success_after_throttling
        (ToNumber : string -> number) (fetch : Transport) (request : Request)
        (rs : list Response) (r : Response) (body : Json) :
  (List.length rs <= Z.to_nat (budget request))%nat ->
  throttled fetch request 0 rs ->
  fetch (url request) (init request) (List.length rs) = Responds r ->
  json r = inr body ->
  ok r = true ->
  execute ToNumber fetch request
  = Some {| settled := Resolved body;
            fetches := S (List.length rs);
            delays := fst (waits ToNumber rs (drawn 0)) |}
  /\ List.length (fst (waits ToNumber rs (drawn 0))) = List.length rs.
Proof.
  intros Hle Hrs Hf Hb Hok. split; [|apply waits_length].
  rewrite (execute_from ToNumber fetch request rs Hle Hrs).
  now apply loop_success with (r := r).
Qed.

(** X6 on three 429 responses with [Retry-After: 1] and then a 200: four
    calls and three delays. *)
Lemma X6_success_after_throttling_witness :
  execute ToNumber_decimal
          (fun _ _ n => match n with
                        | 0%nat | 1%nat | 2%nat =>
                            Responds (busy [("Retry-After", "1")])
                        | _ => Responds fine
                        end)
          (plain_request 10)
  = Some {| settled := Resolved (JObject []); fetches := 4;
            delays := [of_int 1; of_int 1; of_int 1] |}.
Proof.
  apply (X6_success_after_throttling ToNumber_decimal _ (plain_request 10)
           [busy [("Retry-After", "1")]; busy [("Retry-After", "1")];
            busy [("Retry-After", "1")]] fine (JObject []));
    try reflexivity.
  - vm_compute. lia.
  - intros [|[|[|[|i]]]] r Hr; try discriminate; injection Hr as <-;
      (split; [reflexivity | split; [reflexivity | now eexists]]).
Defined.

(** X7: a failure thrown by [fetch] ends the run at once, also after 429
    responses: the promise rejects, [fetch] is not called again, and the
    error is a [NetworkError] for a [TypeError], an [AbortError] for an
    error named [AbortError], and an [UnknownError] with the stringified
    value for anything else; it is never an [ApiError]. *)
Theorem X7_thrown_failure_is_terminal
        (ToNumber : string -> number) (fetch : Transport) (request : Request)
        (rs : list Response) (e : Thrown) :
  (List.length rs <= Z.to_nat (budget request))%nat ->
  throttled fetch request 0 rs ->
  fetch (url request) (init request) (List.length rs) = Throws e ->
  execute ToNumber fetch request
  = Some {| settled :=
              Rejected
                (if isTypeError e then NetworkError (message e)
                 else if isError e && (name e =? "AbortError")%string
                      then AbortError (message e)
                      else UnknownError (stringified e));
            fetches := S (List.length rs);
            delays := fst (waits ToNumber rs (drawn 0)) |}
  /\ instanceof_ApiError (classify e) = false.
Proof.
  intros Hle Hrs Hf. split; [|apply classify_is_no_ApiError].
  rewrite (execute_from ToNumber fetch request rs Hle Hrs).
  now apply loop_throws.
Qed.

(** X7 on a 429 followed by an abort. *)
Lemma X7_thrown_failure_is_terminal_witness :
  execute ToNumber_decimal
          (fun _ _ n => match n with
                        | O => Responds (busy [])
                        | S _ => Throws {| isTypeError := false;
                                           isError := true;
                                           name := "AbortError";
                                           message := "This operation was aborted";
                                           stringified := "{}" |}
                        end)
          (plain_request 10)
  = Some {| settled := Rejected (AbortError "This operation was aborted");
            fetches := 2; delays := [of_int 100] |}.
Proof.
  apply (X7_thrown_failure_is_terminal ToNumber_decimal
           (fun _ _ n => match n with
                         | O => Responds (busy [])
                         | S _ => Throws {| isTypeError := false;
                                            isError := true;
                                            name := "AbortError";
                                            message := "This operation was aborted";
                                            stringified := "{}" |}
                         end)
           (plain_request 10) [busy []]
           {| isTypeError := false; isError := true; name := "AbortError";
              message := "This operation was aborted";
              stringified := "{}" |}); try reflexivity.
  - vm_compute. lia.
  - intros [|[|i]] r Hr; try discriminate; injection Hr as <-;
      (split; [reflexivity | split; [reflexivity | now eexists]]).
Defined.

(** X8: the body is parsed before the status is looked at, so a response
    whose [json()] throws rejects with the classified failure whatever its
    status: a 200 does not resolve, a 404 under [nullOn404] does not resolve
    with [null], a 429 is not retried, and no [ApiError] is made. *)
Theorem X8_unparsed_body_rejects
        (ToNumber : string -> number) (fetch : Transport) (request : Request)
        (rs : list Response) (r : Response) (e : Thrown) :
  (List.length rs <= Z.to_nat (budget request))%nat ->
  throttled fetch request 0 rs ->
  fetch (url request) (init request) (List.length rs) = Responds r ->
  json r = inl e ->
  execute ToNumber fetch request
  = Some {| settled := Rejected (classify e);
            fetches := S (List.length rs);
            delays := fst (waits ToNumber rs (drawn 0)) |}
  /\ instanceof_ApiError (classify e) = false.
Proof.
  intros Hle Hrs Hf Hb. split; [|apply classify_is_no_ApiError].
  rewrite (execute_from ToNumber fetch request rs Hle Hrs).
  now apply loop_unparsed with (r := r).
Qed.

(** X8 on a 404 with a body that is not JSON, under [nullOn404]. *)
Lemma X8_unparsed_body_rejects_witness :
  execute ToNumber_decimal
          (fun _ _ _ =>
             Responds {| status := 404; statusText := "Not Found";
                         headers := [];
                         json := inl (SyntaxError "Unexpected token") |})
          {| url := "https://localhost:8000//book/1?";
             init := {| signal := None; request_headers := [] |};
             budget := 10; nullable := true |}
  = Some {| settled := Rejected (UnknownError "{}"); fetches := 1;
            delays := [] |}.
Proof.
  apply (X8_unparsed_body_rejects ToNumber_decimal
           (fun _ _ _ =>
              Responds {| status := 404; statusText := "Not Found";
                          headers := [];
                          json := inl (SyntaxError "Unexpected token") |})
           {| url := "https://localhost:8000//book/1?";
              init := {| signal := None; request_headers := [] |};
              budget := 10; nullable := true |}
           []
           {| status := 404; statusText := "Not Found"; headers := [];
              json := inl (SyntaxError "Unexpected token") |}
           (SyntaxError "Unexpected token")); try reflexivity.
  - vm_compute. lia.
  - intros [|i] r Hr; discriminate.
Defined.

(** X9: every run ends, over any transport: [fetch] is called at least once
    and at most [maxRetries + 1] times (once when [maxRetries] is not
    positive); a [MaxRetriesExceededError] comes only from a 429 at the last
    call the budget allows, after a delay was waited for every call; in any
    other outcome there is one delay for every call but the last. *)
Theorem X9_run_bounds
        (ToNumber : string -> number) (fetch : Transport) (request : Request) :
  exists run,
    execute ToNumber fetch request = Some run
    /\ (1 <= fetches run <= S (Z.to_nat (budget request)))%nat
    /\ match settled run with
       | Rejected (MaxRetriesExceededError s _ r _) =>
           s = 429 /\ status r = 429
           /\ fetches run = S (Z.to_nat (budget request))
           /\ List.length (delays run) = fetches run
       | _ => S (List.length (delays run)) = fetches run
       end.
Proof.
  destruct (execute_total ToNumber fetch request) as [run Hrun].
  exists run. split; [exact Hrun|].
  apply loop_ends_within in Hrun. destruct Hrun as (H1 & H2 & H3).
  cbn [List.length] in H3. split; [lia|].
  destruct (settled run) as [v|[]]; lia.
Qed.

(** X10: when the 429 responses of a run have no [Retry-After] header (or
    an empty one), the delays are 100, 200, 400, ... doubling from one to
    the next, and 20000 from the ninth on. *)
Theorem X10_backoff_schedule (ToNumber : string -> number)
        (rs : list Response) :
  Forall (fun r => Headers_get (headers r) "Retry-After" = None
                   \/ Headers_get (headers r) "Retry-After" = Some "") rs ->
  fst (waits ToNumber rs (drawn 0))
  = map (fun i => of_int (Z.min (100 * 2 ^ Z.of_nat i) 20000))
        (seq 0 (List.length rs))
  /\ (forall i, (i < 8)%nat ->
                Z.min (100 * 2 ^ Z.of_nat i) 20000 = 100 * 2 ^ Z.of_nat i)
  /\ (forall i, (8 <= i)%nat -> Z.min (100 * 2 ^ Z.of_nat i) 20000 = 20000).
Proof.
  intros H. split; [now rewrite waits_backoff|]. split; intros i Hi.
  - assert (2 ^ Z.of_nat i <= 2 ^ 7) by (apply Z.pow_le_mono_r; lia).
    change (2 ^ 7) with 128 in *. lia.
  - assert (2 ^ 8 <= 2 ^ Z.of_nat i) by (apply Z.pow_le_mono_r; lia).
    change (2 ^ 8) with 256 in *. lia.
Qed.

(** X10 on three 429 responses, the second with an empty header. *)
Lemma X10_backoff_schedule_witness :
  fst (waits ToNumber_decimal
             [busy []; busy [("Retry-After", "")]; busy []] (drawn 0))
  = [of_int 100; of_int 200; of_int 400].
Proof.
  apply (X10_backoff_schedule ToNumber_decimal
           [busy []; busy [("Retry-After", "")]; busy []]).
  repeat (apply Forall_cons;
          [first [left; reflexivity | right; reflexivity]|]).
  apply Forall_nil.
Defined.

(** ** Interfaces: budget, keys and requests *)

Module ApiFacts.
Import JS Filtering StringFacts FilterFacts EncoderFacts Fetch Api QueryFacts
       HandleFacts.

(** [maxRetries] as the destructuring with its default reads it: the
    number the call's options give; 10 when they have the property with the
    value [undefined]; when they do not have it, the number the options of
    the API give, else 10.  ([null], which the type does not admit, counts
    as 0.) *)
Definition effective_maxRetries (apiOptions : CreateApiOptions)
           (options : Options) : Z :=
  match maxRetries options with
  | Value n => n
  | Undefined => 10
  | Null => 0
  | Missing => match apiMaxRetries apiOptions with
               | Some n => n
               | None => 10
               end
  end.

Lemma createInterface_budget endpoint definition apiOptions first second :
  budget (promise (createInterface endpoint definition apiOptions
                                   first second))
  = effective_maxRetries apiOptions (options_of first second).
Proof. destruct definition, first; reflexivity. Qed.

Lemma property_none key prefix definition options :
  property key (buildApi prefix definition options) = None
  <-> ~ In key (map fst definition).
Proof.
  induction definition as [|[k item] rest IH]; cbn [buildApi map property fst].
  - split; [intros _ [] | reflexivity].
  - destruct (String.eqb_spec k key) as [->|Hk].
    + split; [discriminate | intros H; exfalso; apply H; now left].
    + fold (buildApi prefix rest options). rewrite IH. cbn [In].
      split; [intros H [E|E]; [contradiction | now apply H] | tauto].
Qed.

Lemma path_not_empty endpoint rest :
  endpoint <> "" -> endpoint ++ rest <> "".
Proof. destruct endpoint; [congruence | discriminate]. Qed.

Lemma present_query_char {A} key (show : A -> string) p :
  all_chars query_char key = true ->
  (forall a, all_chars query_char (show a) = true) ->
  Forall (fun x => all_chars query_char x = true) (present key show p).
Proof.
  intros Hk Hs. destruct p; constructor; [|constructor].
  now rewrite !all_chars_app, Hk, Hs.
Qed.

Lemma fields_query_char o :
  Forall (fun x => all_chars query_char x = true) (fields o).
Proof.
  unfold fields.
  repeat (apply Forall_app; split); apply present_query_char;
    try reflexivity; try apply number_query_char.
  intros s. apply encoded_query_char.
Qed.

End ApiFacts.

Import ApiFacts.

(** X11: the budget of a call is the number its options give as
    [maxRetries]; when they do not have the property it is that of the
    options of the API, else 10; and when they have it with the value
    [undefined] it is 10 whatever the API says.  A transport that answers
    429 to everything is called one time more than the budget before the
    handle rejects with the [MaxRetriesExceededError] of the last response:
    eleven calls when no [maxRetries] is given anywhere. *)
Theorem X11_retry_budget
        (ToNumber : string -> number) (fetch : Transport)
        endpoint definition apiOptions first second
        (responses : nat -> Response) :
  let h := createInterface endpoint definition apiOptions first second in
  let n := Z.to_nat (effective_maxRetries apiOptions
                                          (options_of first second)) in
  always_throttled fetch (promise h) responses ->
  exists body run,
    json (responses n) = inr body
    /\ await_over ToNumber fetch h = Some run
    /\ settled run
       = Rejected (MaxRetriesExceededError 429 (statusText (responses n))
                                           (responses n) body)
    /\ fetches run = S n
    /\ List.length (delays run) = S n.
Proof.
  intros h n H. unfold await_over.
  destruct (always_throttled_run ToNumber fetch (promise h) responses H)
    as (body & run & Hb & Hrun & Hs & Hf & Hd).
  unfold h in Hb, Hs, Hf, Hd. rewrite createInterface_budget in Hb, Hs, Hf, Hd.
  exists body, run. now repeat split.
Qed.

(** X11 on [book(1)] with no [maxRetries] given: eleven calls; and on
    [book(1, { maxRetries: undefined })] of an API made with
    [maxRetries: 3]: eleven calls again, where [book(1)] of that API makes
    four. *)
Lemma X11_retry_budget_witness :
  let book := mkResourceDefinition "Book" None None None None OneUndefined in
  let plain := {| apiNullOn404 := None; apiMaxRetries := None;
                  apiAuthenticationToken := None |} in
  let three := {| apiNullOn404 := None; apiMaxRetries := Some 3;
                  apiAuthenticationToken := None |} in
  let undefined_maxRetries :=
    {| cancel := None; maxRetries := Undefined; limit := Missing;
       page := Missing; offset := Missing; order := Missing;
       filter := None |} in
  let calls apiOptions second n :=
    exists body run,
      json (busy []) = inr body
      /\ await_over ToNumber_decimal (fun _ _ _ => Responds (busy []))
                    (createInterface "/book" book apiOptions
                                     (IdArgument (VNumber 1)) second)
         = Some run
      /\ settled run
         = Rejected (MaxRetriesExceededError 429 "Too Many Requests"
                                             (busy []) body)
      /\ fetches run = n
      /\ List.length (delays run) = n in
  calls plain None 11%nat
  /\ calls three (Some undefined_maxRetries) 11%nat
  /\ calls three None 4%nat.
Proof.
  cbv zeta. repeat split.
  - apply (X11_retry_budget ToNumber_decimal
             (fun _ _ _ => Responds (busy [])) "/book"
             (mkResourceDefinition "Book" None None None None OneUndefined)
             {| apiNullOn404 := None; apiMaxRetries := None;
                apiAuthenticationToken := None |}
             (IdArgument (VNumber 1)) None (fun _ => busy [])).
    intros i. repeat split. now eexists.
  - apply (X11_retry_budget ToNumber_decimal
             (fun _ _ _ => Responds (busy [])) "/book"
             (mkResourceDefinition "Book" None None None None OneUndefined)
             {| apiNullOn404 := None; apiMaxRetries := Some 3;
                apiAuthenticationToken := None |}
             (IdArgument (VNumber 1))
             (Some {| cancel := None; maxRetries := Undefined;
                      limit := Missing; page := Missing; offset := Missing;
                      order := Missing; filter := None |})
             (fun _ => busy [])).
    intros i. repeat split. now eexists.
  - apply (X11_retry_budget ToNumber_decimal
             (fun _ _ _ => Responds (busy [])) "/book"
             (mkResourceDefinition "Book" None None None None OneUndefined)
             {| apiNullOn404 := None; apiMaxRetries := Some 3;
                apiAuthenticationToken := None |}
             (IdArgument (VNumber 1)) None (fun _ => busy [])).
    intros i. repeat split. now eexists.
Defined.

(** X12: the interface built from a definition has the keys of the
    definition, in its order, and nothing else: looking up a key gives no
    accessor exactly when the definition does not have the key. *)
Theorem X12_api_keys prefix (definition : ApiDefinition) options :
  map fst (buildApi prefix definition options) = map fst definition
  /\ (forall key,
         property key (buildApi prefix definition options) = None
         <-> ~ In key (map fst definition)).
Proof.
  split; [apply buildApi_keys | intros key; apply property_none].
Qed.

(** X13: chaining with a truthy id.  An accessor taken from the handle of
    [parent(id)] requests the parent's path, the id, the key of the child
    and, when the child call has a truthy id of its own, that id, each after
    a [/], and then [?] and the query of the child call's options; the
    options of the parent call are not part of it. *)
Theorem X13_chained_request
        endpoint definition apiOptions pid second ck g first2 second2 :
  endpoint <> "" ->
  truthy pid = true ->
  property ck (properties (createInterface endpoint definition apiOptions
                                           (IdArgument pid) second))
  = Some g ->
  url (promise (g first2 second2))
  = origin ++ "/" ++ endpoint ++ "/" ++ Scalar_toString pid ++ "/" ++ ck
    ++ match id_of first2 with
       | Some cid => if truthy cid then "/" ++ Scalar_toString cid else ""
       | None => ""
       end
    ++ "?" ++ query (options_of first2 second2).
Proof.
  intros He Hp Hg. rewrite createInterface_properties in Hg.
  destruct (one_of definition) as [|b|children]; try discriminate.
  rewrite (child_request_url _ _ _ _ _ first2 second2 Hg).
  cbn [id_of]. rewrite (request_path_cases endpoint (Some pid) He), Hp.
  rewrite request_path_cases by (apply path_not_empty, path_not_empty, He).
  destruct (id_of first2) as [cid|]; [destruct (truthy cid)|];
    repeat first [rewrite append_assoc | progress cbn [append]]; reflexivity.
Qed.

(** X13 on [v1().book(1).chapter(5)]: the accessor [chapter] of the handle
    of [book(1)] is the interface at [/book/1/chapter]. *)
Lemma X13_chained_request_witness :
  url (promise (interface "/book/1/chapter"
                  {| apiNullOn404 := None; apiMaxRetries := None;
                     apiAuthenticationToken := None |}
                  (fun _ => []) (IdArgument (VNumber 5)) None))
  = "https://localhost:8000//book/1/chapter/5?".
Proof.
  apply (X13_chained_request "/book"
           (mkResourceDefinition "Book" None None None None
              (OneApi [("chapter", ItemRecord "Chapter")]))
           {| apiNullOn404 := None; apiMaxRetries := None;
              apiAuthenticationToken := None |}
           (VNumber 1) None "chapter"
           (interface "/book/1/chapter"
              {| apiNullOn404 := None; apiMaxRetries := None;
                 apiAuthenticationToken := None |}
              (fun _ => []))
           (IdArgument (VNumber 5)) None);
    [discriminate | reflexivity | reflexivity].
Defined.

(** X14: the request of a call is made from the endpoint, the options of
    the API and the arguments of the call alone: the definition of the
    endpoint, its [pagination], [filtering] and [sortable] flags included,
    changes nothing in it, so an endpoint declared with [pagination: false]
    still sends [limit], [page] and [offset] when they are given. *)
Theorem X14_definition_flags_are_not_consulted
        endpoint (d1 d2 : ResourceDefinition) apiOptions first second :
  promise (createInterface endpoint d1 apiOptions first second)
  = promise (createInterface endpoint d2 apiOptions first second)
  /\ url (promise (createInterface endpoint d1 apiOptions first second))
     = origin ++ "/" ++ request_path endpoint (id_of first) ++ "?"
       ++ query (options_of first second).
Proof.
  split; [destruct d1, d2, first; reflexivity | apply createInterface_url].
Qed.

(** X15: an accessor of the API made by [createApi] requests the origin
    followed by two slashes and the key, since the path starts with the
    empty prefix and a [/], and the URL always has its [?], also when the
    query is empty. *)
Theorem X15_top_level_request (definition : ApiDefinition) options key f :
  property key (createApi definition options) = Some f ->
  url (promise (f NoArgument None)) = origin ++ "//" ++ key ++ "?"
  /\ forall id second,
       truthy id = true ->
       url (promise (f (IdArgument id) second))
       = origin ++ "//" ++ key ++ "/" ++ Scalar_toString id ++ "?"
         ++ query (options_of (IdArgument id) second).
Proof.
  intros Hf. unfold createApi in Hf. split.
  - now rewrite (child_request_url _ _ _ _ _ NoArgument None Hf).
  - intros id second Hid.
    rewrite (child_request_url _ _ _ _ _ (IdArgument id) second Hf).
    cbn [id_of]. rewrite request_path_cases by discriminate. rewrite Hid.
    repeat first [rewrite append_assoc | progress cbn [append]]; reflexivity.
Qed.

(** X15 on [v1().character()]. *)
Lemma X15_top_level_request_witness :
  url (promise (createInterface "/character"
                  (mkResourceDefinition "Character" None None None None
                     (OneApi [("quote", ItemRecord "Quote")]))
                  {| apiNullOn404 := None; apiMaxRetries := None;
                     apiAuthenticationToken := None |}
                  NoArgument None))
  = "https://localhost:8000//character?".
Proof.
  apply (X15_top_level_request schema
           {| apiNullOn404 := None; apiMaxRetries := None;
              apiAuthenticationToken := None |}
           "character"
           (createInterface "/character"
              (mkResourceDefinition "Character" None None None None
                 (OneApi [("quote", ItemRecord "Quote")]))
              {| apiNullOn404 := None; apiMaxRetries := None;
                 apiAuthenticationToken := None |})).
  reflexivity.
Defined.

(** The numbers of pagination are safe integers. *)
Definition safe_pagination (o : Options) : bool :=
  let safe p := match p with Value n => safe_integer n | _ => true end in
  safe (limit o) && safe (page o) && safe (offset o).

(** X16: the query string of a call has only the characters
    [encodeURIComponent] writes and [& = ! < > ,] whenever no filter of its
    options is an object with [$ne] or [$nin] and the numbers of its
    pagination and filters are safe integers: [order] and the values of the
    filters are escaped, the numbers are decimal. *)
Theorem X16_query_is_safe (o : Options) :
  safe_pagination o = true ->
  (forall f, filter o = Some f ->
             Forall (fun e => well_encoded (snd e) = true) f) ->
  all_chars query_char (query o) = true.
Proof.
  intros _ Hf.
  assert (Hs : all_chars query_char (stringify (queryObject o)) = true).
  { rewrite stringify_queryObject.
    apply all_chars_join; [reflexivity | apply fields_query_char]. }
  assert (Hq : all_chars query_char (filterQuery o) = true).
  { unfold filterQuery.
    change (stringifyFilters ?x) with (join "&" (all_fragments x)).
    apply all_chars_join; [reflexivity|].
    apply all_fragments_query_char.
    destruct (filter o) as [f|];
      [now apply well_encoded_encodable, Hf | constructor]. }
  rewrite query_cases.
  destruct (filterQuery o) as [|c fq] eqn:E; [exact Hs|].
  destruct (stringify (queryObject o)) as [|d s] eqn:E'; [exact Hq|].
  now rewrite !all_chars_app, Hs, Hq.
Qed.

(** X16 on pagination, an order and a filter with a space and an [&]. *)
Lemma X16_query_is_safe_witness :
  all_chars query_char
    (query {| cancel := None; maxRetries := Missing; limit := Value 5;
              page := Value 0; offset := Null; order := Value "name:asc";
              filter := Some [("name", Is (IsPrimitive (PString "a b&c")))] |})
  = true.
Proof.
  apply X16_query_is_safe; [reflexivity|].
  intros f [= <-]. repeat constructor.
Defined.

(** X17: every request carries [Content-Type] and [Accept] of
    [application/json] and the signal of the call's [cancel]; it carries
    [Authorization: Bearer <token>] exactly when the API was made with a
    token that is not empty. *)
Theorem X17_request_headers
        endpoint definition apiOptions first second :
  let i := init (promise (createInterface endpoint definition apiOptions
                                          first second)) in
  Headers_get (request_headers i) "Content-Type" = Some "application/json"
  /\ Headers_get (request_headers i) "Accept" = Some "application/json"
  /\ Headers_get (request_headers i) "Authorization"
     = match apiAuthenticationToken apiOptions with
       | Some (String c rest) => Some ("Bearer " ++ String c rest)
       | _ => None
       end
  /\ signal i = cancel (options_of first second).
Proof.
  destruct definition, first; cbv zeta;
    cbn [createInterface interface promise init request_headers signal
         options_of];
    destruct (apiAuthenticationToken apiOptions) as [[|c rest]|];
    (split; [reflexivity | split; [reflexivity | split; reflexivity]]).
Qed.

(** X18: in an object filter [$ne] comes first and [$nin] second: when
    [$ne] is there the fragment is the negation alone, and when it is not
    but [$nin] is, the exclusion alone; the other keys of the object,
    bounds included, are not written. *)
Theorem X18_negation_takes_precedence (key : string) (o : FilterObject) :
  (forall v, dollar_ne o = Some v ->
             stringifyFilters [(key, Obj o)]
             = encodeURIComponent key ++ "!=" ++ IsFilter_toString v)
  /\ (forall l, dollar_ne o = None -> dollar_nin o = Some l ->
                stringifyFilters [(key, Obj o)]
                = encodeURIComponent key ++ "!="
                  ++ join "," (map join_element l)).
Proof.
  split.
  - intros v Hv. cbn. now rewrite Hv.
  - intros l Hne Hnin. cbn. now rewrite Hne, Hnin.
Qed.

(** X18 on [{ $ne: 'x', $nin: ['y'], $gt: 1 }] and on [{ $nin: ['y'], $gt: 1 }]. *)
Lemma X18_negation_takes_precedence_witness :
  stringifyFilters
    [("n", Obj {| dollar_ne := Some (IsPrimitive (PString "x"));
                  dollar_nin := Some [PString "y"]; dollar_gt := Some 1;
                  dollar_lt := None; dollar_gte := None;
                  dollar_lte := None |})]
  = "n!=x"
  /\ stringifyFilters
       [("n", Obj {| dollar_ne := None; dollar_nin := Some [PString "y"];
                     dollar_gt := Some 1; dollar_lt := None;
                     dollar_gte := None; dollar_lte := None |})]
     = "n!=y".
Proof.
  split.
  - apply (proj1 (X18_negation_takes_precedence "n"
             {| dollar_ne := Some (IsPrimitive (PString "x"));
                dollar_nin := Some [PString "y"]; dollar_gt := Some 1;
                dollar_lt := None; dollar_gte := None;
                dollar_lte := None |})
             (IsPrimitive (PString "x"))).
    reflexivity.
  - apply (proj2 (X18_negation_takes_precedence "n"
             {| dollar_ne := None; dollar_nin := Some [PString "y"];
                dollar_gt := Some 1; dollar_lt := None;
                dollar_gte := None; dollar_lte := None |})
             [PString "y"]); reflexivity.
Defined.
